(** * scripts/convert_to_coco.py: folder dataset to COCO JSON

    A shallow embedding of the conversion script and the properties of
    its collector, CSV box parser, label-map loader and split reader.

    Library calls are modelled by what they hand back to the script:
    - [Path.exists], [Path.glob] and file reads are lookups in a typed
      directory tree (finite maps from file names to contents);
    - [json.load] yields either a decode error or the parsed entries;
    - [csv.reader] yields the tokenised records of a file, from which
      [csv.DictReader] builds one dictionary per data record;
    - [float()], [int()], float multiplication and the comparison
      [v > 0] are the operations of the class [PyNum];
    - [PIL.Image.open] yields the pixel size or fails.
    Exceptions are values of [exn], threaded through the monad [result]. *)

From stdpp Require Import base option list list_numbers sorting gmap strings.
From Stdlib Require Import ZArith Ascii.

Local Open Scope Z_scope.

(** ** Exceptions and the error monad *)

Inductive exn :=
  | ValueError
  | TypeError
  | KeyError (key : string)
  | JSONDecodeError
  | UnidentifiedImageError.

Inductive result (A : Type) :=
  | Ok (a : A)
  | Raise (e : exn).
Arguments Ok {A} a.
Arguments Raise {A} e.

Global Instance result_ret : MRet result := λ A a, Ok a.
Global Instance result_bind : MBind result := λ A B f m,
  match m with
  | Ok a => f a
  | Raise e => Raise e
  end.

Definition is_ok {A} (r : result A) : Prop :=
  match r with Ok _ => True | Raise _ => False end.

(** ** Python numbers

    [float_of_str s] is [float(s)] for a [str]: [None] stands for the
    [ValueError] of a literal that does not parse.  [int_of_str] is
    [int(s)] likewise.  [fgt0 v] is [v > 0]. *)

Class PyNum := {
  float : Type;
  float_of_str : string → option float;
  float_of_int : Z → float;
  fmul : float → float → float;
  fgt0 : float → bool;
  int_of_str : string → option Z;
}.

(** What [row.get(key, default)] can return: a cell of the record, the
    integer default, or the [None] that [DictReader] stores for a field
    the record is too short to reach. *)
Inductive pyval :=
  | PyStr (s : string)
  | PyInt (z : Z)
  | PyNone.

(** ** csv.DictReader *)

(** A CSV file as [csv.reader] tokenises it: one list of cells per record. *)
Definition csv_file := list (list string).

Abbreviation row_dict := (gmap string (option string)).

(** [dict(zip(fieldnames, row))], then [restval = None] for every field
    name beyond the end of a short record.  Cells beyond the header go
    under the key [None], which no lookup by name reaches. *)
Definition make_row (fieldnames row : list string) : row_dict :=
  let d := foldl (λ d kv, <[kv.1 := Some kv.2]> d) ∅ (zip fieldnames row) in
  foldl (λ d key, <[key := None]> d) d (drop (length row) fieldnames).

(** The first record is the header; blank records are passed over. *)
Definition DictReader (f : csv_file) : list row_dict :=
  match f with
  | [] => []
  | fieldnames :: records =>
      make_row fieldnames <$> filter (λ row, row ≠ []) records
  end.

Definition row_get (row : row_dict) (key : string) (default : pyval) : pyval :=
  match row !! key with
  | Some (Some s) => PyStr s
  | Some None => PyNone
  | None => default
  end.

Section Boxes.
Context `{PyNum}.

Record box := Box {
  bbox : list float;
  area : float;
  category_id : Z;
}.

Definition py_float (v : pyval) : result float :=
  match v with
  | PyStr s =>
      match float_of_str s with
      | Some x => Ok x
      | None => Raise ValueError
      end
  | PyInt z => Ok (float_of_int z)
  | PyNone => Raise TypeError
  end.

Definition py_int (v : pyval) : result Z :=
  match v with
  | PyStr s =>
      match int_of_str s with
      | Some z => Ok z
      | None => Raise ValueError
      end
  | PyInt z => Ok z
  | PyNone => Raise TypeError
  end.

(** The body of the [try] block for one row: the box to append, if any. *)
Definition parse_row (row : row_dict) : result (option box) :=
  x ← py_float (row_get row "x" (PyInt 0));
  y ← py_float (row_get row "y" (PyInt 0));
  width ← py_float (row_get row "width" (PyInt 0));
  height ← py_float (row_get row "height" (PyInt 0));
  label ← py_int (row_get row "label" (PyInt 1));
  mret (if fgt0 width && fgt0 height
        then Some (Box [x; y; width; height] (fmul width height) label)
        else None).

(** The [for row in reader] loop; [except (ValueError, KeyError): continue]. *)
Fixpoint parse_rows (rows : list row_dict) (boxes : list box) : result (list box) :=
  match rows with
  | [] => Ok boxes
  | row :: rest =>
      match parse_row row with
      | Ok (Some b) => parse_rows rest (boxes ++ [b])
      | Ok None => parse_rows rest boxes
      | Raise ValueError => parse_rows rest boxes
      | Raise (KeyError _) => parse_rows rest boxes
      | Raise e => Raise e
      end
  end.

(** [csv_path] is given as the file found there, [None] when
    [csv_path.exists()] is false. *)
Definition parse_csv_boxes (csv_path : option csv_file) : result (list box) :=
  match csv_path with
  | None => Ok []
  | Some f => parse_rows (DictReader f) []
  end.
End Boxes.

(** ** Strings: the [str] and [pathlib] operations the script uses *)

(** [s.endswith(suffix)]: some tail of [s] is [suffix]. *)
Fixpoint endswith (s suffix : string) : bool :=
  bool_decide (s = suffix) ||
  match s with
  | EmptyString => false
  | String _ s' => endswith s' suffix
  end.

(** [s.rfind(c)], [None] for -1. *)
Fixpoint rfind (c : ascii) (s : string) : option nat :=
  match s with
  | EmptyString => None
  | String a s' =>
      match rfind c s' with
      | Some i => Some (S i)
      | None => if decide (a = c) then Some 0%nat else None
      end
  end.

(** [PurePath.stem] and [PurePath.suffix] of a file name: split at the
    last dot unless it is the first or the last character. *)
Definition py_stem (name : string) : string :=
  match rfind "."%char name with
  | Some i =>
      if decide (0 < i < String.length name - 1)%nat
      then String.substring 0 i name else name
  | None => name
  end.

Definition py_suffix (name : string) : string :=
  match rfind "."%char name with
  | Some i =>
      if decide (0 < i < String.length name - 1)%nat
      then String.substring i (String.length name - i) name else ""
  | None => ""
  end.

(** A [str] is held as the bytes of its UTF-8 encoding.  [whitespace]
    lists the characters of which [str.isspace] holds, each as its
    UTF-8 bytes: U+0009..U+000D, U+001C..U+0020, U+0085, U+00A0, U+1680,
    U+2000..U+200A, U+2028, U+2029, U+202F, U+205F and U+3000. *)
Definition utf8 (bytes : list nat) : string :=
  foldr (λ b s, String (ascii_of_nat b) s) EmptyString bytes.

Definition whitespace : list string :=
  utf8 <$>
    [[9]; [10]; [11]; [12]; [13]; [28]; [29]; [30]; [31]; [32];
     [194; 133]; [194; 160]; [225; 154; 128];
     [226; 128; 128]; [226; 128; 129]; [226; 128; 130]; [226; 128; 131];
     [226; 128; 132]; [226; 128; 133]; [226; 128; 134]; [226; 128; 135];
     [226; 128; 136]; [226; 128; 137]; [226; 128; 138];
     [226; 128; 168]; [226; 128; 169]; [226; 128; 175]; [226; 129; 159];
     [227; 128; 128]]%nat.

(** [s] without the leading [prefix], when it starts with it. *)
Fixpoint without_prefix (prefix s : string) : option string :=
  match prefix with
  | EmptyString => Some s
  | String a prefix' =>
      match s with
      | EmptyString => None
      | String b s' => if decide (a = b) then without_prefix prefix' s' else None
      end
  end.

(** [s] without its first character, when that is one of [chars]. *)
Definition skip_char (chars : list string) (s : string) : option string :=
  head (omap (λ c, without_prefix c s) chars).

(** The scan of [lstrip]: leading characters are skipped while they are
    among [chars]; [n] bounds the number of characters skipped. *)
Fixpoint skip_chars (chars : list string) (n : nat) (s : string) : string :=
  match n with
  | O => s
  | S n' =>
      match skip_char chars s with
      | Some t => skip_chars chars n' t
      | None => s
      end
  end.

Definition lskip (chars : list string) (s : string) : string :=
  skip_chars chars (String.length s) s.

(** [s.lstrip()], [s.rstrip()] and [s.strip()]: the scan from the right
    is the scan from the left of the reversed bytes, for the reversed
    characters. *)
Definition lstrip (s : string) : string := lskip whitespace s.

Definition rstrip (s : string) : string :=
  String.rev (lskip (String.rev <$> whitespace) (String.rev s)).

Definition strip (s : string) : string := rstrip (lstrip s).

(** ** read_split_list *)

(** [split_file] is the list of lines of the decoded file
    ([splitlines]), or [None] when the file does not exist. *)
Definition read_split_list (split_file : option (list string)) : list string :=
  match split_file with
  | None => []
  | Some text =>
      let lines := strip <$> text in
      filter (λ line, line ≠ "") lines
  end.

(** ** load_labelmap *)

(** One object of the label-map array; a field is [None] when the
    object has no such key.  Fields that are present have the types of
    the documented layout: a string [object_name], an integer
    [label_id]. *)
Record labelmap_item := LabelmapItem {
  object_name : option string;
  label_id : option Z;
}.

(** What [json.load] makes of the file. *)
Inductive labelmap_file :=
  | NotJSON
  | JSONArray (items : list labelmap_item).

(** [item[key]] *)
Definition getitem {A} (key : string) (field : option A) : result A :=
  match field with
  | Some v => Ok v
  | None => Raise (KeyError key)
  end.

Fixpoint load_items (items : list labelmap_item) (id_to_name : gmap Z string)
    : result (gmap Z string) :=
  match items with
  | [] => Ok id_to_name
  | item :: rest =>
      name ← getitem "object_name" (object_name item);
      if decide (name ≠ "background") then
        value ← getitem "object_name" (object_name item);
        key ← getitem "label_id" (label_id item);
        load_items rest (<[key := value]> id_to_name)
      else load_items rest id_to_name
  end.

Definition load_labelmap (labelmap_path : option labelmap_file)
    : result (gmap Z string) :=
  match labelmap_path with
  | None => Ok ∅
  | Some NotJSON => Raise JSONDecodeError
  | Some (JSONArray labelmap) => load_items labelmap ∅
  end.

(** ** The category list *)

Record category := Category {
  cat_id : Z;
  cat_name : string;
  supercategory : string;
}.

(** Order of the [(label_id, name)] tuples under [sorted]. *)
Definition item_le (a b : Z * string) : Prop :=
  a.1 < b.1 ∨ (a.1 = b.1 ∧ String.le a.2 b.2).

Global Instance item_le_dec : RelDecision item_le.
Proof. intros a b. unfold item_le. apply _. Defined.

Global Instance item_le_trans : Transitive item_le.
Proof.
  intros [k1 n1] [k2 n2] [k3 n3]. unfold item_le. simpl.
  intros [?|[-> ?]] [?|[-> ?]]; [left; lia|by left|by left|].
  right. split; [done|]. by etrans.
Qed.

Global Instance item_le_total : Total item_le.
Proof.
  intros [k1 n1] [k2 n2]. unfold item_le. simpl.
  destruct (Z.lt_trichotomy k1 k2) as [?|[->|?]]; [by left; left| |by right; left].
  destruct (total String.le n1 n2); [left|right]; by right.
Qed.

Definition sorted_items (id_to_name : gmap Z string) : list (Z * string) :=
  merge_sort item_le (map_to_list id_to_name).

(** [category_name[:-1] if category_name.endswith('s') else category_name] *)
Definition supercategory_of (category_name : string) : string :=
  if endswith category_name "s"
  then String.substring 0 (String.length category_name - 1) category_name
  else category_name.

Definition categories_of (id_to_name : gmap Z string) (category_name : string)
    : list category :=
  (λ kv, Category kv.1 kv.2 (supercategory_of category_name))
    <$> sorted_items id_to_name.

(** ** The dataset directory

    The tree is made of regular files and directories that can be
    read: there are no symbolic links, so a name [glob] lists is one
    that [exists].  Text files are held decoded, a split file as its
    lines and a CSV file as the records [csv.reader] yields. *)

(** An image file as [PIL.Image.open] sees it. *)
Inductive image_file :=
  | Image (width height : Z)
  | NotAnImage.

(** A child directory of the category root: its [images/] folder, if
    there is one, and its [csv/] folder, both as maps from file names
    to contents (a missing [csv/] folder is the empty map). *)
Record subcat_dir := SubcatDir {
  images_dir : option (gmap string image_file);
  annotations_dir : gmap string csv_file;
}.

Inductive dir_entry :=
  | RegularFile
  | Directory (d : subcat_dir).

(** The category root: [labelmap.json], the files of [sets/], and the
    children in the order [iterdir()] yields them. *)
Record category_dir := CategoryDir {
  labelmap_json : option labelmap_file;
  sets_dir : gmap string (list string);
  iterdir : list (string * dir_entry);
}.

(** [{p.stem for p in images_dir.glob("*" + ext)}] *)
Definition glob_stems (dir : gmap string image_file) (ext : string) : gset string :=
  set_map py_stem (filter (λ name, endswith name ext = true) (dom dir)).

Definition extensions : list string :=
  [".jpg"; ".JPG"; ".png"; ".PNG"; ".bmp"; ".BMP"].

(** The [for ext in [...]] loop: the first candidate name that exists. *)
Fixpoint resolve (dir : gmap string image_file) (stem : string) (exts : list string)
    : option string :=
  match exts with
  | [] => None
  | ext :: rest =>
      let potential_path := stem +:+ ext in
      if decide (is_Some (dir !! potential_path)) then Some potential_path
      else resolve dir stem rest
  end.

Definition image_size (f : option image_file) : result (Z * Z) :=
  match f with
  | Some (Image w h) => Ok (w, h)
  | _ => Raise UnidentifiedImageError
  end.

Record image_rec := ImageRec {
  im_id : Z;
  file_name : string;
  im_width : Z;
  im_height : Z;
}.

(** ** collect_annotations_for_category *)

(** A [for] loop whose body may raise. *)
Fixpoint for_each {S A} (body : S → A → result S) (xs : list A) (s : S) : result S :=
  match xs with
  | [] => Ok s
  | x :: rest => s' ← body s x; for_each body rest s'
  end.

Section Collector.
Context `{PyNum}.

Record annotation := Annotation {
  ann_id : Z;
  image_id : Z;
  ann_category_id : Z;
  ann_bbox : list float;
  ann_area : float;
  iscrowd : Z;
}.

(** The mutable locals of the collector. *)
Record locals := Locals {
  images : list image_rec;
  anns : list annotation;
  image_id_counter : Z;
  ann_id_counter : Z;
}.

(** [for box in parse_csv_boxes(csv_path)]: append, then [ann_id_counter += 1]. *)
Definition append_box (st : locals) (b : box) : locals :=
  Locals (images st)
         (anns st ++ [Annotation (ann_id_counter st) (image_id_counter st)
                                 (category_id b) (bbox b) (area b) 0])
         (image_id_counter st)
         (ann_id_counter st + 1).

(** [f"{category_name}/{subcategory_name}/images/{img_path.name}"] *)
Definition image_file_name (category_name subcategory_name name : string) : string :=
  category_name +:+ "/" +:+ subcategory_name +:+ "/images/" +:+ name.

(** The body of [for stem in sorted(image_stems & subcat_images)]. *)
Definition visit_stem (category_name subcategory_name : string)
    (dir : gmap string image_file) (csv : gmap string csv_file)
    (st : locals) (stem : string) : result locals :=
  match resolve dir stem extensions with
  | None => Ok st
  | Some name =>
      '(width, height) ← image_size (dir !! name);
      let st := Locals
        (images st ++
           [ImageRec (image_id_counter st)
              (image_file_name category_name subcategory_name name)
              width height])
        (anns st) (image_id_counter st) (ann_id_counter st) in
      boxes ← parse_csv_boxes (csv !! (stem +:+ ".csv"));
      let st := foldl append_box st boxes in
      Ok (Locals (images st) (anns st) (image_id_counter st + 1) (ann_id_counter st))
  end.

Definition subcat_images (dir : gmap string image_file) : gset string :=
  glob_stems dir ".jpg" ∪ glob_stems dir ".JPG"
    ∪ glob_stems dir ".png" ∪ glob_stems dir ".PNG".

(** [sorted(image_stems & subcat_images)] *)
Definition selected_stems (image_stems : gset string) (dir : gmap string image_file)
    : list string :=
  merge_sort String.le (elements (image_stems ∩ subcat_images dir)).

(** The body of [for subcat_dir in category_root.iterdir()]. *)
Definition visit_subcat (category_name : string) (image_stems : gset string)
    (st : locals) (child : string * dir_entry) : result locals :=
  match child with
  | (_, RegularFile) => Ok st
  | (subcategory_name, Directory d) =>
      if decide (subcategory_name = "sets") then Ok st
      else match images_dir d with
           | None => Ok st
           | Some dir =>
               for_each
                 (visit_stem category_name subcategory_name dir (annotations_dir d))
                 (selected_stems image_stems dir) st
           end
  end.

Definition collect_annotations_for_category
    (category_root : category_dir) (split category_name : string)
    : result (list image_rec * list annotation * list category) :=
  id_to_name ← load_labelmap (labelmap_json category_root);
  let image_stems : gset string :=
    list_to_set (read_split_list (sets_dir category_root !! (split +:+ ".txt"))) in
  let categories := categories_of id_to_name category_name in
  st ← for_each (visit_subcat category_name image_stems)
                (iterdir category_root) (Locals [] [] 1 1);
  Ok (images st, anns st, categories).
End Collector.

(** ** A numeric instance for evaluation

    Integer-valued literals only: an optional sign and decimal digits.
    On such literals [float()] and [int()] of CPython agree with it, and
    products of small integers are exact in binary64. *)

Fixpoint digits_value (s : string) (acc : Z) : option Z :=
  match s with
  | EmptyString => Some acc
  | String c s' =>
      match Ascii.is_nat c with
      | Some d => digits_value s' (10 * acc + Z.of_nat d)
      | None => None
      end
  end.

Definition Z_of_literal (s : string) : option Z :=
  match s with
  | EmptyString => None
  | String "-" (String _ _ as ds) => Z.opp <$> digits_value ds 0
  | String "+" (String _ _ as ds) => digits_value ds 0
  | _ => digits_value s 0
  end.

Definition ZNum : PyNum := {|
  float := Z;
  float_of_str := Z_of_literal;
  float_of_int := id;
  fmul := Z.mul;
  fgt0 := λ v, bool_decide (0 < v);
  int_of_str := Z_of_literal;
|}.

(** ** Specification-side definitions *)

Section BoxSpec.
Context `{PyNum}.

(** The box a row contributes, read off the description of the parser:
    all five fields convert and both sizes are positive. *)
Definition spec_box (row : row_dict) : option box :=
  match py_float (row_get row "x" (PyInt 0)),
        py_float (row_get row "y" (PyInt 0)),
        py_float (row_get row "width" (PyInt 0)),
        py_float (row_get row "height" (PyInt 0)),
        py_int (row_get row "label" (PyInt 1)) with
  | Ok x, Ok y, Ok w, Ok h, Ok l =>
      if fgt0 w && fgt0 h then Some (Box [x; y; w; h] (fmul w h) l) else None
  | _, _, _, _, _ => None
  end.

(** Width and height of the row convert to positive values. *)
Definition size_positive (row : row_dict) : Prop :=
  ∃ w h,
    py_float (row_get row "width" (PyInt 0)) = Ok w ∧
    py_float (row_get row "height" (PyInt 0)) = Ok h ∧
    fgt0 w = true ∧ fgt0 h = true.
End BoxSpec.

(** Every data record of the file has a cell for each header field. *)
Definition full_records (f : csv_file) : Prop :=
  match f with
  | [] => True
  | fieldnames :: records =>
      Forall (λ row, (length fieldnames ≤ length row)%nat) records
  end.

Definition header : list string := ["x"; "y"; "width"; "height"; "label"].

(** Example files. *)
Definition csv_mixed : csv_file :=
  [header; ["1"; "2"; "3"; "4"; "1"]; ["1"; "1"; "0"; "5"; "1"];
   ["5"; "6"; "7"; "8"; "two"]; ["5"; "6"; "7"; "8"; "2"]].

Definition csv_bad_x : csv_file :=
  [header; ["abc"; "1"; "2"; "3"; "1"]].

Definition csv_short_record : csv_file :=
  [header; ["10"; "20"; "30"; "40"; "1"]; ["10"; "20"; "30"]].


(** The label map of the example: two classes and the background. *)
Definition example_labelmap : labelmap_file :=
  JSONArray [LabelmapItem (Some "ripe") (Some 1);
             LabelmapItem (Some "unripe") (Some 2);
             LabelmapItem (Some "background") (Some 0)].

(** An object the loader cannot process: no [object_name], or no
    [label_id] on an object that is not the background. *)
Definition missing_field (item : labelmap_item) : Prop :=
  object_name item = None ∨
  (object_name item ≠ Some "background" ∧ label_id item = None).

(** An object that contributes [key ↦ name] to the mapping. *)
Definition names (item : labelmap_item) (key : Z) (name : string) : Prop :=
  object_name item = Some name ∧ name ≠ "background" ∧ label_id item = Some key.

(** ** Specification of the collector *)

Section CollectorSpec.
Context `{PyNum}.

(** The loop invariant on the locals: ids issued so far are 1, 2, ...
    in list order, the counters are one past the last id issued, and
    every annotation refers to an image id issued before the next one. *)
Definition ids_ok (st : locals) : Prop :=
  im_id <$> images st = seqZ 1 (Z.of_nat (length (images st))) ∧
  image_id_counter st = 1 + Z.of_nat (length (images st)) ∧
  ann_id <$> anns st = seqZ 1 (Z.of_nat (length (anns st))) ∧
  ann_id_counter st = 1 + Z.of_nat (length (anns st)) ∧
  Forall (λ a, 1 ≤ image_id a < image_id_counter st) (anns st).
End CollectorSpec.

(** The image record was written for the file [stem + ext] found in
    the [images/] folder of a child directory of the category root. *)
Definition emitted_for (root : category_dir) (category_name : string)
    (subcategory_name stem ext : string) (dir : gmap string image_file)
    (im : image_rec) : Prop :=
  (∃ d, (subcategory_name, Directory d) ∈ iterdir root ∧ images_dir d = Some dir) ∧
  ext ∈ extensions ∧
  is_Some (dir !! (stem +:+ ext)) ∧
  file_name im = image_file_name category_name subcategory_name (stem +:+ ext).

(** Every file of the folder whose stem is [stem] is a BMP file. *)
Definition bmp_only (dir : gmap string image_file) (stem : string) : Prop :=
  map_Forall (λ name _, py_stem name = stem →
                py_suffix name = ".bmp" ∨ py_suffix name = ".BMP") dir.

(** The extensions of the four [glob] calls. *)
Definition glob_extensions : list string := [".jpg"; ".JPG"; ".png"; ".PNG"].

(** The names of the split: [read_split_list(sets_dir / f"{split}.txt")]. *)
Definition split_names (root : category_dir) (split : string) : list string :=
  read_split_list (sets_dir root !! (split +:+ ".txt")).

(** The record was written for a stem of the split that has a file
    matched by one of the [glob] calls. *)
Definition emitted (root : category_dir) (split category_name : string)
    (im : image_rec) : Prop :=
  ∃ subcategory_name stem ext dir,
    emitted_for root category_name subcategory_name stem ext dir im ∧
    stem ∈ split_names root split ∧
    ∃ sibling gext,
      gext ∈ glob_extensions ∧ is_Some (dir !! sibling) ∧
      endswith sibling gext = true ∧ py_stem sibling = stem.

(** The name has no path separator. *)
Definition no_slash (s : string) : Prop := rfind "/"%char s = None.

(** No child of the category root has a path separator in its name. *)
Definition slash_free (root : category_dir) : Prop :=
  Forall (λ child : string * dir_entry, no_slash child.1) (iterdir root).

(** Example dataset: two subcategories, a hidden file [.jpg] whose stem
    resolves to no image, a BMP-only image [c], an image [d] with a CSV
    file that the split does not list, an image [b] without CSV file,
    and a split file with padding, a blank line and a name with no
    file. *)
Definition csv_no_label : csv_file :=
  [["x"; "y"; "width"; "height"]; ["0"; "0"; "2"; "2"]].

Definition healthy : subcat_dir :=
  SubcatDir
    (Some (list_to_map [("a.jpg", Image 10 20); ("b.PNG", Image 30 40);
                        ("c.bmp", Image 1 1); ("d.jpg", Image 2 2);
                        (".jpg", Image 3 3)]))
    (list_to_map [("a.csv", csv_mixed); ("d.csv", csv_no_label)]).

Definition scorch : subcat_dir :=
  SubcatDir
    (Some (list_to_map [("e.png", Image 5 5)]))
    (list_to_map [("e.csv", csv_no_label)]).

Definition example_sets : gmap string (list string) :=
  list_to_map [("train.txt", ["a"; " b "; ""; "c"; "e"; ".jpg"; "zz"])].

Definition example_root : category_dir :=
  CategoryDir (Some example_labelmap) example_sets
    [("labelmap.json", RegularFile);
     ("sets", Directory (SubcatDir None ∅));
     ("healthy", Directory healthy);
     ("scorch", Directory scorch)].

(** The same directory, its children listed in another order. *)
Definition example_root_reordered : category_dir :=
  CategoryDir (Some example_labelmap) example_sets
    [("scorch", Directory scorch);
     ("healthy", Directory healthy);
     ("sets", Directory (SubcatDir None ∅));
     ("labelmap.json", RegularFile)].

Definition example_images : list image_rec :=
  [ImageRec 1 "strawberries/healthy/images/a.jpg" 10 20;
   ImageRec 2 "strawberries/healthy/images/b.PNG" 30 40;
   ImageRec 3 "strawberries/scorch/images/e.png" 5 5].

Definition example_anns : list (@annotation ZNum) :=
  [@Annotation ZNum 1 1 1 [1; 2; 3; 4] 12 0;
   @Annotation ZNum 2 1 2 [5; 6; 7; 8] 56 0;
   @Annotation ZNum 3 3 1 [0; 0; 2; 2] 4 0].

Definition example_categories : list category :=
  [Category 1 "ripe" "strawberrie"; Category 2 "unripe" "strawberrie"].

(** A category root on which nothing raises: the label map loads, every
    image file opens and every CSV record is as long as its header. *)
Definition readable_subcat (d : subcat_dir) : Prop :=
  (∀ dir, images_dir d = Some dir → map_Forall (λ _ f, f ≠ NotAnImage) dir) ∧
  map_Forall (λ _ f, full_records f) (annotations_dir d).

Definition readable (root : category_dir) : Prop :=
  is_ok (load_labelmap (labelmap_json root)) ∧
  Forall (λ child : string * dir_entry,
            match child.2 with
            | Directory d => readable_subcat d
            | RegularFile => True
            end) (iterdir root).

(** ** Further specification-side definitions *)

(** No object of the list contributes a name for [key]. *)
Definition unnamed (items : list labelmap_item) (key : Z) : Prop :=
  Forall (λ item, ∀ name, ¬ names item key name) items.

(** [name] is what the last object of [items] naming [key] calls it. *)
Definition last_named (items : list labelmap_item) (key : Z) (name : string) : Prop :=
  ∃ before item after,
    items = before ++ item :: after ∧ names item key name ∧ unnamed after key.

(** The entry one pass of the loop of [load_labelmap] stores, if any. *)
Definition labelmap_pair (item : labelmap_item) : option (Z * string) :=
  match object_name item, label_id item with
  | Some name, Some key =>
      if decide (name ≠ "background") then Some (key, name) else None
  | _, _ => None
  end.

(** The objects other than the background. *)
Definition foreground (items : list labelmap_item) : list labelmap_item :=
  filter (λ item, object_name item ≠ Some "background") items.

(** The line is a sequence of white-space characters and nothing else. *)
Definition whitespace_only (s : string) : Prop :=
  ∃ chars, Forall (λ c, c ∈ whitespace) chars ∧ s = foldr String.append "" chars.

(** The name is not empty and neither starts nor ends with a
    white-space character. *)
Definition clean_name (s : string) : Prop :=
  s ≠ "" ∧ ∀ c t, c ∈ whitespace → s ≠ c +:+ t ∧ s ≠ t +:+ c.

(** ** The collector as a comprehension *)

(** One pass of the inner loop that gets as far as opening an image:
    the subcategory, the stem, the file name it resolves to, and what
    is found at the image path and at the CSV path. *)
Record visit := Visit {
  v_subcategory : string;
  v_stem : string;
  v_name : string;
  v_image : option image_file;
  v_csv : option csv_file;
}.

Definition stem_visit (subcategory_name : string) (d : subcat_dir)
    (dir : gmap string image_file) (stem : string) : option visit :=
  (λ name, Visit subcategory_name stem name (dir !! name)
                 (annotations_dir d !! (stem +:+ ".csv")))
    <$> resolve dir stem extensions.

Definition child_visits (image_stems : gset string) (child : string * dir_entry)
    : list visit :=
  match child with
  | (_, RegularFile) => []
  | (subcategory_name, Directory d) =>
      if decide (subcategory_name = "sets") then []
      else match images_dir d with
           | None => []
           | Some dir =>
               omap (stem_visit subcategory_name d dir)
                    (selected_stems image_stems dir)
           end
  end.

(** The visits of a run, in the order the loops make them. *)
Definition visits (root : category_dir) (split : string) : list visit :=
  iterdir root ≫= child_visits (list_to_set (split_names root split)).

Section CollectorComprehension.
Context `{PyNum}.

(** The exception a visit ends in, if any. *)
Definition visit_error (v : visit) : option exn :=
  match image_size (v_image v) with
  | Raise e => Some e
  | Ok _ =>
      match parse_csv_boxes (v_csv v) with
      | Raise e => Some e
      | Ok _ => None
      end
  end.

Fixpoint first_error (vs : list visit) : option exn :=
  match vs with
  | [] => None
  | v :: vs =>
      match visit_error v with
      | Some e => Some e
      | None => first_error vs
      end
  end.

Definition image_of (category_name : string) (id : Z) (v : visit) : image_rec :=
  let size := match image_size (v_image v) with
              | Ok size => size
              | Raise _ => (0, 0)
              end in
  ImageRec id (image_file_name category_name (v_subcategory v) (v_name v))
           size.1 size.2.

Definition boxes_of (v : visit) : list box :=
  match parse_csv_boxes (v_csv v) with
  | Ok boxes => boxes
  | Raise _ => []
  end.

(** The image records: the visits, numbered from 1. *)
Definition images_of (category_name : string) (vs : list visit) : list image_rec :=
  zip_with (image_of category_name) (seqZ 1 (Z.of_nat (length vs))) vs.

(** The boxes of all visits in order, each with the id of its image. *)
Definition labelled_boxes (vs : list visit) : list (Z * box) :=
  mjoin (zip_with (λ id v, pair id <$> boxes_of v) (seqZ 1 (Z.of_nat (length vs))) vs).

Definition annotation_of (id : Z) (p : Z * box) : annotation :=
  Annotation id p.1 (category_id p.2) (bbox p.2) (area p.2) 0.

(** The annotation records: the labelled boxes, numbered from 1. *)
Definition annotations_of (vs : list visit) : list annotation :=
  zip_with annotation_of (seqZ 1 (Z.of_nat (length (labelled_boxes vs))))
           (labelled_boxes vs).

(** The locals after the visits [vs]. *)
Definition locals_after (category_name : string) (vs : list visit) : locals :=
  Locals (images_of category_name vs) (annotations_of vs)
         (1 + Z.of_nat (length vs))
         (1 + Z.of_nat (length (labelled_boxes vs))).

(** The collector without loops and counters. *)
Definition collect_spec (root : category_dir) (split category_name : string)
    : result (list image_rec * list annotation * list category) :=
  id_to_name ← load_labelmap (labelmap_json root);
  match first_error (visits root split) with
  | Some e => Raise e
  | None =>
      Ok (images_of category_name (visits root split),
          annotations_of (visits root split),
          categories_of id_to_name category_name)
  end.
End CollectorComprehension.

(** Example: the CSV file of the listed image [a] has a short record. *)
Definition healthy_short_csv : subcat_dir :=
  SubcatDir
    (Some (list_to_map [("a.jpg", Image 10 20); ("a.png", Image 11 21)]))
    (list_to_map [("a.csv", csv_short_record)]).

Definition example_root_short_csv : category_dir :=
  CategoryDir (Some example_labelmap) example_sets
    [("healthy", Directory healthy_short_csv)].

(** The child is a directory other than [sets] that has an [images/]
    folder. *)
Definition is_subcategory (child : string * dir_entry) : Prop :=
  match child with
  | (_, RegularFile) => False
  | (name, Directory d) => name ≠ "sets" ∧ is_Some (images_dir d)
  end.

Global Instance is_subcategory_dec (child : string * dir_entry) :
  Decision (is_subcategory child).
Proof. destruct child as [name [|d]]; simpl; apply _. Defined.

Section AnnotationPayload.
Context `{PyNum}.

(** What an annotation says apart from its two ids, and the same for
    the box it is written from. *)
Definition payload (a : annotation) : Z * list float * float * Z :=
  (ann_category_id a, ann_bbox a, ann_area a, iscrowd a).

Definition box_payload (b : box) : Z * list float * float * Z :=
  (category_id b, bbox b, area b, 0).
End AnnotationPayload.

(** ** build_coco_dict and main *)

Section Driver.
Context `{PyNum}.

Record coco_info := CocoInfo {
  year : Z;
  version : string;
  description : string;
  url : string;
}.

Record coco := Coco {
  info : coco_info;
  coco_images : list image_rec;
  coco_annotations : list annotation;
  coco_categories : list category;
  licenses : list string;
}.

Definition build_coco_dict (images : list image_rec) (anns : list annotation)
    (categories : list category) (description url : string) (year : Z) : coco :=
  Coco (CocoInfo year "1.0.0" description url) images anns categories [].

(** How [main] ends: by returning, by [sys.exit(code)], or by an
    exception nobody catches. *)
Inductive outcome :=
  | Returned
  | SysExit (code : Z)
  | Uncaught (e : exn).

(** The lines [main] prints. *)
Inductive printed :=
  | PrintNotFound (category_name : string)
  | PrintGenerated (out_path : string) (n_images n_annotations : nat).

(** [f"{category_name}_instances_{split}.json"], the file name under
    [args.out]. *)
Definition out_name (category_name split : string) : string :=
  category_name +:+ "_instances_" +:+ split +:+ ".json".

Definition kaggle_url : string :=
  "https://www.kaggle.com/datasets/abdallahalidev/plantvillage-dataset".

(** The document [main] writes for a split. *)
Definition split_document (category_name split : string)
    (images : list image_rec) (anns : list annotation) (cat_list : list category)
    : coco :=
  let desc := "PlantVillage " +:+ category_name +:+ " " +:+ split +:+ " split" in
  build_coco_dict images anns cat_list desc kaggle_url 2015.

(** The [for split in args.splits] loop.  [out] is the output directory
    as a map from file names to the documents written there; the
    category root is read anew for every split.  Writing a document is
    taken to succeed. *)
Fixpoint write_splits (category_root : category_dir) (category_name : string)
    (splits : list string) (out : gmap string coco) (stdout : list printed)
    : gmap string coco * list printed * outcome :=
  match splits with
  | [] => (out, stdout, Returned)
  | split :: rest =>
      match collect_annotations_for_category category_root split category_name with
      | Raise e => (out, stdout, Uncaught e)
      | Ok (images, anns, cat_list) =>
          let coco := split_document category_name split images anns cat_list in
          let out_path := out_name category_name split in
          write_splits category_root category_name rest
            (<[out_path := coco]> out)
            (stdout ++ [PrintGenerated out_path (length images) (length anns)])
      end
  end.

(** [main], after argument parsing: [splits] is [args.splits],
    [category_root] what is found at [args.root / "strawberries"]
    ([None] when it does not exist) and [out] the directory [args.out]
    ([None] when it does not exist yet; [mkdir] then creates it). *)
Definition main (splits : list string) (category_root : option category_dir)
    (out : option (gmap string coco))
    : gmap string coco * list printed * outcome :=
  let out := default ∅ out in
  let category_name := "strawberries" in
  match category_root with
  | None => (out, [PrintNotFound category_name], SysExit 1)
  | Some category_root => write_splits category_root category_name splits out []
  end.

(** Ids 1, 2, ... in list order, and every annotation refers to the id
    of an image of the document. *)
Definition well_numbered (doc : coco) : Prop :=
  im_id <$> coco_images doc = seqZ 1 (Z.of_nat (length (coco_images doc))) ∧
  ann_id <$> coco_annotations doc
    = seqZ 1 (Z.of_nat (length (coco_annotations doc))) ∧
  Forall (λ a, image_id a ∈ im_id <$> coco_images doc) (coco_annotations doc).
End Driver.

(** Example: the [val] split lists an image whose CSV file has a short
    record; the [train] split is sound. *)
Definition example_root_bad_val : category_dir :=
  CategoryDir (Some example_labelmap)
    (list_to_map [("train.txt", ["b"]); ("val.txt", ["a"])])
    [("healthy",
      Directory
        (SubcatDir
           (Some (list_to_map [("a.jpg", Image 10 20); ("b.jpg", Image 30 40)]))
           (list_to_map [("a.csv", csv_short_record); ("b.csv", csv_mixed)])))].

(** Two visits of the same subcategory are in strictly ascending order
    of their stems. *)
Definition stem_ordered (v1 v2 : visit) : Prop :=
  v_subcategory v1 = v_subcategory v2 →
  String.le (v_stem v1) (v_stem v2) ∧ v_stem v1 ≠ v_stem v2.

(** Example: the same names in another order and with a repetition. *)
Definition example_sets_shuffled : gmap string (list string) :=
  list_to_map [("train.txt", ["e"; "zz"; "b"; "a"; "c"; "a"; ".jpg"])].
(** ** The box parser *)

Section BoxParser.
Context `{PyNum}.

Lemma parse_row_spec (row : row_dict) :
  match parse_row row with
  | Ok b => spec_box row = b
  | Raise e =>
      spec_box row = None ∧
      (e = ValueError ∨ (e = TypeError ∧ ∃ key, row !! key = Some None))
  end.
Proof.
  unfold parse_row, spec_box, py_float, py_int, row_get.
  repeat match goal with
  | |- context [row !! ?k] => destruct (row !! k) as [[?|]|] eqn:?
  | |- context [float_of_str ?s] => destruct (float_of_str s) eqn:?
  | |- context [int_of_str ?s] => destruct (int_of_str s) eqn:?
  end; simpl; eauto 10.
Qed.

Lemma parse_rows_spec (rows : list row_dict) (acc : list box) :
  match parse_rows rows acc with
  | Ok boxes => boxes = acc ++ omap spec_box rows
  | Raise e =>
      e = TypeError ∧ Exists (λ row, ∃ key, row !! key = Some None) rows
  end.
Proof.
  revert acc. induction rows as [|row rows IH]; intros acc; simpl.
  { by rewrite app_nil_r. }
  pose proof (parse_row_spec row) as Hrow.
  destruct (parse_row row) as [[b|]|e]; simpl in *.
  - specialize (IH (acc ++ [b])). rewrite Hrow.
    destruct (parse_rows rows (acc ++ [b])); [by rewrite IH, <-app_assoc|].
    destruct IH; split; [done|by right].
  - specialize (IH acc). rewrite Hrow.
    destruct (parse_rows rows acc); [done|].
    destruct IH; split; [done|by right].
  - destruct Hrow as [-> [->|[-> Hnone]]].
    + specialize (IH acc). destruct (parse_rows rows acc); [done|].
      destruct IH; split; [done|by right].
    + split; [done|by left].
Qed.

Lemma make_row_full (fieldnames row : list string) (key : string) :
  (length fieldnames ≤ length row)%nat →
  make_row fieldnames row !! key ≠ Some None.
Proof.
  intros Hlen. unfold make_row. rewrite drop_ge by done. simpl.
  assert (∀ (l : list (string * string)) (d : row_dict),
    d !! key ≠ Some None →
    foldl (λ d kv, <[kv.1 := Some kv.2]> d) d l !! key ≠ Some None) as Hfold.
  { induction l as [|[k v] l IH]; intros d Hd; simpl; [done|].
    apply IH. destruct (decide (k = key)) as [->|].
    - by rewrite lookup_insert_eq.
    - by rewrite lookup_insert_ne. }
  apply Hfold. by rewrite lookup_empty.
Qed.

Lemma DictReader_full (f : csv_file) :
  full_records f →
  Forall (λ row : row_dict, ∀ key, row !! key ≠ Some None) (DictReader f).
Proof.
  destruct f as [|fieldnames records]; simpl; [by constructor|].
  intros Hfull. apply Forall_fmap, Forall_forall.
  intros row [_ Hin]%list_elem_of_filter key.
  rewrite Forall_forall in Hfull. by apply make_row_full, Hfull.
Qed.

Lemma spec_box_Some (row : row_dict) (b : box) :
  spec_box row = Some b ↔
  ∃ x y w h l,
    py_float (row_get row "x" (PyInt 0)) = Ok x ∧
    py_float (row_get row "y" (PyInt 0)) = Ok y ∧
    py_float (row_get row "width" (PyInt 0)) = Ok w ∧
    py_float (row_get row "height" (PyInt 0)) = Ok h ∧
    py_int (row_get row "label" (PyInt 1)) = Ok l ∧
    fgt0 w = true ∧ fgt0 h = true ∧
    b = Box [x; y; w; h] (fmul w h) l.
Proof.
  unfold spec_box. split.
  - destruct (py_float (row_get row "x" _)) as [x|]; [|done].
    destruct (py_float (row_get row "y" _)) as [y|]; [|done].
    destruct (py_float (row_get row "width" _)) as [w|]; [|done].
    destruct (py_float (row_get row "height" _)) as [h|]; [|done].
    destruct (py_int (row_get row "label" _)) as [l|]; [|done].
    destruct (fgt0 w) eqn:?, (fgt0 h) eqn:?; simpl; intros; simplify_eq.
    by exists x, y, w, h, l.
  - intros (x & y & w & h & l & -> & -> & -> & -> & -> & -> & -> & ->). done.
Qed.
End BoxParser.

Lemma parse_csv_boxes_full `{PyNum} (f : csv_file) :
  full_records f →
  parse_csv_boxes (Some f) = Ok (omap spec_box (DictReader f)).
Proof.
  intros Hfull%DictReader_full. simpl.
  pose proof (parse_rows_spec (DictReader f) []) as Hspec.
  destruct (parse_rows (DictReader f) []) as [boxes|e]; [by subst|].
  destruct Hspec as [_ Hex]. apply Exists_exists in Hex as (row & Hin & key & Hkey).
  rewrite Forall_forall in Hfull. by destruct (Hfull row Hin key).
Qed.

(** C4 (amended).  Whenever [parse_csv_boxes] returns, the boxes it
    returns are those of the data rows, in row order, where a data row
    contributes a box exactly when its x, y, width, height and label
    all convert and both width and height are positive; the box then
    has bbox [x, y, width, height], area width * height and category_id
    the label.  Nothing is said of the calls that raise (C5). *)
Theorem parse_csv_boxes_emits `{PyNum} (f : csv_file) (boxes : list box) :
  parse_csv_boxes (Some f) = Ok boxes →
  boxes = omap spec_box (DictReader f) ∧
  (∀ row b, spec_box row = Some b ↔
     ∃ x y w h l,
       py_float (row_get row "x" (PyInt 0)) = Ok x ∧
       py_float (row_get row "y" (PyInt 0)) = Ok y ∧
       py_float (row_get row "width" (PyInt 0)) = Ok w ∧
       py_float (row_get row "height" (PyInt 0)) = Ok h ∧
       py_int (row_get row "label" (PyInt 1)) = Ok l ∧
       fgt0 w = true ∧ fgt0 h = true ∧
       b = Box [x; y; w; h] (fmul w h) l).
Proof.
  intros Hok. split.
  - simpl in Hok.
    pose proof (parse_rows_spec (DictReader f) []) as Hspec.
    by rewrite Hok in Hspec.
  - apply spec_box_Some.
Qed.

Lemma parse_csv_boxes_emits_witness :
  @parse_csv_boxes ZNum (Some csv_mixed) =
    Ok [@Box ZNum [1; 2; 3; 4] 12 1; @Box ZNum [5; 6; 7; 8] 56 2] ∧
  [@Box ZNum [1; 2; 3; 4] 12 1; @Box ZNum [5; 6; 7; 8] 56 2] =
    omap (@spec_box ZNum) (DictReader csv_mixed).
Proof.
  assert (@parse_csv_boxes ZNum (Some csv_mixed) =
            Ok [@Box ZNum [1; 2; 3; 4] 12 1; @Box ZNum [5; 6; 7; 8] 56 2]) as Hok
    by reflexivity.
  split; [exact Hok|].
  exact (proj1 (@parse_csv_boxes_emits ZNum csv_mixed _ Hok)).
Defined.

(** C4 as stated fails: width and height of the row convert to the
    positive values 2 and 3, yet no box is returned, because x does not
    convert. *)
Lemma parse_csv_boxes_unparsable_x :
  @size_positive ZNum (make_row header ["abc"; "1"; "2"; "3"; "1"]) ∧
  @parse_csv_boxes ZNum (Some csv_bad_x) = Ok [].
Proof.
  split; [|reflexivity].
  exists 2, 3. repeat split; reflexivity.
Qed.

(** C5.  A record shorter than the header leaves [None] in the row, on
    which [float()] raises [TypeError]; the handler catches only
    [ValueError] and [KeyError], so the call is aborted and the box of
    the first, well-formed record is lost. *)
Theorem parse_csv_boxes_short_record_aborts :
  @parse_csv_boxes ZNum (Some csv_short_record) = Raise TypeError.
Proof. reflexivity. Qed.

(** ** The label map *)

Lemma load_items_spec (items : list labelmap_item) (m0 : gmap Z string) :
  match load_items items m0 with
  | Ok _ => Forall (λ item, ¬ missing_field item) items
  | Raise e => (∃ key, e = KeyError key) ∧ Exists missing_field items
  end.
Proof.
  revert m0. induction items as [|[[name|] lid] items IH]; intros m0; simpl.
  - by constructor.
  - destruct (decide (name ≠ "background")) as [Hname|Hname]; simpl.
    + destruct lid as [key|]; simpl.
      * specialize (IH (<[key:=name]> m0)).
        destruct (load_items items (<[key:=name]> m0)).
        -- constructor; [|done]. intros [?|[_ ?]]; simplify_eq/=.
        -- destruct IH. split; [done|by right].
      * split; [by eexists|]. left. right. split; simpl; congruence.
    + specialize (IH m0). destruct (load_items items m0).
      * constructor; [|done].
        intros [?|[Hne _]]; simplify_eq/=. apply Hname. congruence.
      * destruct IH. split; [done|by right].
  - split; [by eexists|]. left. by left.
Qed.

Lemma load_items_lookup (items : list labelmap_item) (m0 m : gmap Z string) :
  load_items items m0 = Ok m →
  (∀ key name, m !! key = Some name →
     m0 !! key = Some name ∨ ∃ item, item ∈ items ∧ names item key name) ∧
  (∀ key, is_Some (m0 !! key) → is_Some (m !! key)) ∧
  (∀ item key name, item ∈ items → names item key name → is_Some (m !! key)).
Proof.
  revert m0. induction items as [|[[name|] lid] items IH]; intros m0; simpl.
  - intros [= <-]. split; [auto|]. split; [auto|].
    intros ??? ?%elem_of_nil. done.
  - destruct (decide (name ≠ "background")) as [Hname|Hname]; simpl.
    + destruct lid as [key|]; simpl; [|done].
      intros (Hin & Hkeep & Hall)%IH. split; [|split].
      * intros k n [Hk|(item & ? & ?)]%Hin.
        -- destruct (decide (key = k)) as [->|].
           ++ rewrite lookup_insert_eq in Hk. simplify_eq. right.
              eexists. split; [by left|]. done.
           ++ rewrite lookup_insert_ne in Hk by done. by left.
        -- right. exists item. split; [by right|done].
      * intros k Hk. apply Hkeep.
        destruct (decide (key = k)) as [->|].
        -- rewrite lookup_insert_eq. by eexists.
        -- by rewrite lookup_insert_ne.
      * intros item k n [->|Hitem]%elem_of_cons Hn.
        -- destruct Hn as (? & ? & ?); simplify_eq/=.
           apply Hkeep. rewrite lookup_insert_eq. by eexists.
        -- by eapply Hall.
    + intros (Hin & Hkeep & Hall)%IH. split; [|split].
      * intros k n [Hk|(item & ? & ?)]%Hin; [by left|].
        right. exists item. split; [by right|done].
      * done.
      * intros item k n [->|Hitem]%elem_of_cons Hn.
        -- destruct Hn as (? & ? & ?); simplify_eq/=. by destruct Hname.
        -- by eapply Hall.
  - done.
Qed.

(** C6.  A missing split file, label map or per-image CSV file is read
    as empty and nothing is raised: the split reader returns the empty
    list, the label-map loader the empty mapping, the box parser the
    empty list; a category root that has neither label map nor split
    files is collected into three empty lists. *)
Theorem missing_files_are_empty `{PyNum} :
  read_split_list None = [] ∧
  load_labelmap None = Ok ∅ ∧
  parse_csv_boxes None = Ok [] ∧
  ∀ children split category_name,
    collect_annotations_for_category
      (CategoryDir None ∅ children) split category_name = Ok ([], [], []).
Proof.
  repeat split.
  intros children split category_name.
  unfold collect_annotations_for_category. simpl.
  rewrite lookup_empty. simpl.
  assert (∀ st, for_each (visit_subcat category_name (list_to_set []))
                  children st = Ok st) as ->.
  { induction children as [|[name [|d]] children IH]; intros st; simpl; [done..|].
    unfold visit_subcat at 1. destruct (decide (name = "sets")); simpl; [done|].
    destruct (images_dir d) as [dir|]; simpl; [|done].
    unfold selected_stems. simpl.
    rewrite (left_absorb_L ∅ (∩)), elements_empty. simpl. apply IH. }
  simpl. unfold categories_of, sorted_items. by rewrite map_to_list_empty.
Qed.

(** C9 as stated fails: the object has no [label_id], yet the loader
    returns (the empty mapping), because [label_id] is never read on a
    background object. *)
Lemma load_labelmap_background_without_id :
  label_id (LabelmapItem (Some "background") None) = None ∧
  load_labelmap (Some (JSONArray [LabelmapItem (Some "background") None])) = Ok ∅.
Proof. split; reflexivity. Qed.

(** C9 (amended).  If the label-map file exists but is not valid JSON
    the decode error is propagated; on an array of objects the loader
    raises [KeyError] exactly when some object lacks [object_name], or
    lacks [label_id] while its [object_name] is not "background"; it
    never returns a partial mapping in those cases. *)
Theorem load_labelmap_propagates :
  load_labelmap (Some NotJSON) = Raise JSONDecodeError ∧
  ∀ items,
    (Exists missing_field items →
       ∃ key, load_labelmap (Some (JSONArray items)) = Raise (KeyError key)) ∧
    (Forall (λ item, ¬ missing_field item) items →
       is_ok (load_labelmap (Some (JSONArray items)))).
Proof.
  split; [done|]. intros items. simpl.
  pose proof (load_items_spec items ∅) as Hspec.
  destruct (load_items items ∅) as [m|e]; split.
  - intros (item & Hin & Hmiss)%Exists_exists.
    rewrite Forall_forall in Hspec. by destruct (Hspec item Hin).
  - done.
  - destruct Hspec as [[key ->] _]. by exists key.
  - intros Hall. destruct Hspec as [_ (item & Hin & Hmiss)%Exists_exists].
    rewrite Forall_forall in Hall. by destruct (Hall item Hin).
Qed.

Lemma load_labelmap_propagates_witness :
  Exists missing_field [LabelmapItem (Some "ripe") (Some 1); LabelmapItem (Some "unripe") None] ∧
  ∃ key, load_labelmap (Some (JSONArray
           [LabelmapItem (Some "ripe") (Some 1); LabelmapItem (Some "unripe") None]))
         = Raise (KeyError key).
Proof.
  assert (Exists missing_field
            [LabelmapItem (Some "ripe") (Some 1); LabelmapItem (Some "unripe") None])
    as Hex.
  { right. left. right. split; [discriminate|reflexivity]. }
  split; [exact Hex|].
  exact (proj1 (proj2 load_labelmap_propagates _) Hex).
Defined.

(** ** Strings *)

Lemma app_String (a : ascii) (s t : string) :
  String a s +:+ t = String a (s +:+ t).
Proof. reflexivity. Qed.

Lemma app_empty_l (t : string) : "" +:+ t = t.
Proof. reflexivity. Qed.

Lemma string_length_app (s t : string) :
  String.length (s +:+ t) = (String.length s + String.length t)%nat.
Proof. induction s as [|a s IH]; [done|]. rewrite app_String. simpl. by rewrite IH. Qed.

Lemma endswith_refl (s : string) : endswith s s = true.
Proof. destruct s; [done|]. simpl. by rewrite bool_decide_eq_true_2. Qed.

Lemma endswith_app (t s : string) : endswith (t +:+ s) s = true.
Proof.
  induction t as [|a t IH]; [apply endswith_refl|].
  rewrite app_String. simpl. rewrite IH. apply orb_true_r.
Qed.

Lemma endswith_spec (s suffix : string) :
  endswith s suffix = true → ∃ t, s = t +:+ suffix.
Proof.
  induction s as [|a s IH]; simpl.
  - rewrite orb_false_r. intros ->%bool_decide_eq_true. by exists "".
  - intros [->%bool_decide_eq_true|[t ->]%IH]%orb_true_iff.
    + by exists "".
    + by exists (String a t).
Qed.

Lemma substring_0_app (t s : string) :
  String.substring 0 (String.length t) (t +:+ s) = t.
Proof.
  induction t as [|a t IH]; [by destruct s|].
  rewrite app_String. simpl. by rewrite IH.
Qed.

Lemma supercategory_of_plural (t : string) : supercategory_of (t +:+ "s") = t.
Proof.
  unfold supercategory_of. rewrite endswith_app, string_length_app. simpl.
  replace (String.length t + 1 - 1)%nat with (String.length t) by lia.
  apply substring_0_app.
Qed.

(** ** The category list *)

Lemma sorted_items_elem_of (m : gmap Z string) (key : Z) (name : string) :
  (key, name) ∈ sorted_items m ↔ m !! key = Some name.
Proof.
  unfold sorted_items. rewrite merge_sort_Permutation. apply elem_of_map_to_list.
Qed.

Lemma sorted_items_ascending (m : gmap Z string) :
  StronglySorted Z.lt (sorted_items m).*1.
Proof.
  assert (StronglySorted item_le (sorted_items m)) as Hsorted
    by apply (StronglySorted_merge_sort _).
  assert (NoDup (sorted_items m).*1) as Hnodup.
  { unfold sorted_items. rewrite merge_sort_Permutation.
    apply NoDup_fst_map_to_list. }
  induction Hsorted as [|[k n] l Hl IH Hall]; simpl in *; [constructor|].
  apply NoDup_cons in Hnodup as [Hk Hnodup].
  constructor; [by apply IH|].
  apply Forall_fmap, Forall_forall. intros [k' n'] Hin.
  rewrite Forall_forall in Hall. destruct (Hall _ Hin) as [?|[? _]]; simpl in *; [done|].
  subst. destruct Hk. apply list_elem_of_fmap. by exists (k', n').
Qed.

Lemma categories_of_ids (m : gmap Z string) (category_name : string) :
  cat_id <$> categories_of m category_name = (sorted_items m).*1.
Proof. unfold categories_of. by rewrite <-list_fmap_compose. Qed.

Lemma elem_of_categories_of (m : gmap Z string) (category_name : string) (c : category) :
  c ∈ categories_of m category_name ↔
  m !! cat_id c = Some (cat_name c) ∧
  supercategory c = supercategory_of category_name.
Proof.
  unfold categories_of. rewrite list_elem_of_fmap. split.
  - intros ([k n] & -> & Hin%sorted_items_elem_of). done.
  - intros [Hm Hsuper]. exists (cat_id c, cat_name c).
    split; [destruct c; simpl in *; by subst|by apply sorted_items_elem_of].
Qed.

(** C7 as stated fails: on the example map with category name
    "strawberries" the supercategory is "strawberrie" (one trailing "s"
    removed), not "strawberr". *)
Lemma example_supercategory_not_strawberr :
  ¬ ∃ m, load_labelmap (Some example_labelmap) = Ok m ∧
         cat_id <$> categories_of m "strawberries" = [1; 2] ∧
         Forall (λ c, supercategory c = "strawberr")
                (categories_of m "strawberries").
Proof.
  intros (m & Hm & _ & Hall). vm_compute in Hm. injection Hm as <-.
  vm_compute in Hall. inversion Hall as [|?? Hhd _]. discriminate Hhd.
Qed.

(** C7 (amended).  The category list is built from the label-map
    objects whose object_name is not "background" only: it is strictly
    ascending in id, each of its entries has the id and name of such an
    object and every such object's id occurs in it, and the
    supercategory is the category name with one trailing "s" removed if
    there is one.  For the three-object example map and the category
    name "strawberries" it is exactly the two entries with ids 1 and 2,
    each with supercategory "strawberrie". *)
Theorem categories_from_labelmap :
  (∀ items m category_name,
     load_labelmap (Some (JSONArray items)) = Ok m →
     StronglySorted Z.lt (cat_id <$> categories_of m category_name) ∧
     (∀ c, c ∈ categories_of m category_name →
        supercategory c = supercategory_of category_name ∧
        ∃ item, item ∈ items ∧ names item (cat_id c) (cat_name c)) ∧
     (∀ item key name, item ∈ items → names item key name →
        key ∈ cat_id <$> categories_of m category_name)) ∧
  (∀ t, supercategory_of (t +:+ "s") = t) ∧
  (∀ category_name, endswith category_name "s" = false →
     supercategory_of category_name = category_name) ∧
  (m ← load_labelmap (Some example_labelmap);
   mret (categories_of m "strawberries"))
  = Ok [Category 1 "ripe" "strawberrie"; Category 2 "unripe" "strawberrie"].
Proof.
  split; [|split; [apply supercategory_of_plural|split]].
  - intros items m category_name Hload. simpl in Hload.
    apply load_items_lookup in Hload as (Hin & _ & Hall).
    split; [|split].
    + rewrite categories_of_ids. apply sorted_items_ascending.
    + intros c [Hc ?]%elem_of_categories_of. split; [done|].
      apply Hin in Hc as [Hc|?]; [|done]. by rewrite lookup_empty in Hc.
    + intros item key name Hitem Hnames.
      destruct (Hall item key name Hitem Hnames) as [n Hn].
      rewrite categories_of_ids. apply list_elem_of_fmap.
      exists (key, n). split; [done|]. by apply sorted_items_elem_of.
  - intros category_name Hs. unfold supercategory_of. by rewrite Hs.
  - reflexivity.
Qed.

Lemma categories_from_labelmap_witness :
  load_labelmap (Some example_labelmap) = Ok {[1 := "ripe"; 2 := "unripe"]} ∧
  StronglySorted Z.lt
    (cat_id <$> categories_of {[1 := "ripe"; 2 := "unripe"]} "strawberries").
Proof.
  assert (load_labelmap (Some example_labelmap) = Ok {[1 := "ripe"; 2 := "unripe"]})
    as Hload by reflexivity.
  split; [exact Hload|].
  exact (proj1 (proj1 categories_from_labelmap _ _ "strawberries" Hload)).
Defined.

(** ** The collector: loops and locals *)

Lemma for_each_inv {S A} (P : S → Prop) (body : S → A → result S)
    (xs : list A) (s s' : S) :
  (∀ s x s', x ∈ xs → P s → body s x = Ok s' → P s') →
  P s → for_each body xs s = Ok s' → P s'.
Proof.
  revert s. induction xs as [|x xs IH]; intros s Hbody Hs; simpl.
  - by intros [= <-].
  - destruct (body s x) as [s1|e] eqn:Hx; simpl; [|done].
    apply IH.
    + intros ??? Hin. apply Hbody. by right.
    + eapply Hbody; [by left|done..].
Qed.

Lemma resolve_Some (dir : gmap string image_file) (stem : string)
    (exts : list string) (name : string) :
  resolve dir stem exts = Some name →
  ∃ ext, ext ∈ exts ∧ name = stem +:+ ext ∧ is_Some (dir !! name).
Proof.
  induction exts as [|ext exts IH]; simpl; [done|].
  destruct (decide (is_Some (dir !! (stem +:+ ext)))) as [Hex|_].
  - intros [= <-]. exists ext. split; [by left|done].
  - intros (ext' & ? & ? & ?)%IH. exists ext'. split; [by right|done].
Qed.

Section CollectorProofs.
Context `{PyNum}.

Lemma foldl_append_box_spec (boxes : list box) (st : locals) :
  images (foldl append_box st boxes) = images st ∧
  image_id_counter (foldl append_box st boxes) = image_id_counter st ∧
  ann_id_counter (foldl append_box st boxes)
    = ann_id_counter st + Z.of_nat (length boxes) ∧
  ∃ new,
    anns (foldl append_box st boxes) = anns st ++ new ∧
    length new = length boxes ∧
    ann_id <$> new = seqZ (ann_id_counter st) (Z.of_nat (length boxes)) ∧
    Forall (λ a, image_id a = image_id_counter st) new.
Proof.
  revert st. induction boxes as [|b boxes IH]; intros st; simpl.
  - repeat split; [lia|]. exists []. by rewrite app_nil_r.
  - destruct (IH (append_box st b)) as (Him & Hic & Hac & new & Hanns & Hlen & Hids & Himg).
    simpl in *. rewrite Him, Hic, Hac. repeat split; [lia|].
    eexists (_ :: new). rewrite Hanns, <-app_assoc. split; [done|].
    split; [simpl; by rewrite Hlen|]. split.
    + rewrite fmap_cons, Hids. simpl ann_id.
      rewrite (seqZ_cons (ann_id_counter st)) by lia.
      do 2 f_equal; lia.
    + by constructor.
Qed.

(** One pass of the loop body either leaves the locals alone (no file
    resolves) or issues the next image id and the next annotation ids. *)
Lemma visit_stem_spec (category_name subcategory_name : string)
    (dir : gmap string image_file) (csv : gmap string csv_file)
    (st st' : locals) (stem : string) :
  visit_stem category_name subcategory_name dir csv st stem = Ok st' →
  (resolve dir stem extensions = None ∧ st' = st) ∨
  ∃ name width height new,
    resolve dir stem extensions = Some name ∧
    images st' = images st ++
      [ImageRec (image_id_counter st)
         (image_file_name category_name subcategory_name name) width height] ∧
    anns st' = anns st ++ new ∧
    image_id_counter st' = image_id_counter st + 1 ∧
    ann_id_counter st' = ann_id_counter st + Z.of_nat (length new) ∧
    ann_id <$> new = seqZ (ann_id_counter st) (Z.of_nat (length new)) ∧
    Forall (λ a, image_id a = image_id_counter st) new.
Proof.
  unfold visit_stem. destruct (resolve dir stem extensions) as [name|]; [|intros [= <-]; by left].
  destruct (image_size (dir !! name)) as [[width height]|] eqn:Hsize; simpl; [|done].
  destruct (parse_csv_boxes (csv !! (stem +:+ ".csv"))) as [boxes|]; simpl; [|done].
  intros [= <-]. right.
  match goal with |- context [foldl append_box ?s boxes] =>
    destruct (foldl_append_box_spec boxes s)
      as (Him & Hic & Hac & new & Hanns & Hlen & Hids & Himg)
  end.
  simpl in *. exists name, width, height, new.
  rewrite Him, Hanns, Hic, Hac, Hlen. done.
Qed.

Lemma visit_stem_ids_ok (category_name subcategory_name : string)
    (dir : gmap string image_file) (csv : gmap string csv_file)
    (st st' : locals) (stem : string) :
  ids_ok st →
  visit_stem category_name subcategory_name dir csv st stem = Ok st' →
  ids_ok st'.
Proof.
  intros (Him & Hic & Han & Hac & Href) Hvisit.
  apply visit_stem_spec in Hvisit
    as [[_ ->]|(name & w & h & new & _ & Him' & Han' & Hic' & Hac' & Hids & Hnew)];
    [done|].
  unfold ids_ok. rewrite Him', Han', Hic', Hac', !fmap_app, !length_app, Him, Han, Hids.
  simpl. repeat split.
  - rewrite Nat.add_1_r, seqZ_S, Hic. done.
  - lia.
  - rewrite Nat2Z.inj_add, seqZ_app by lia. by rewrite Hac.
  - lia.
  - apply Forall_app. split.
    + eapply Forall_impl; [done|]. simpl. lia.
    + eapply Forall_impl; [done|]. simpl. lia.
Qed.

Lemma visit_subcat_ids_ok (category_name : string) (image_stems : gset string)
    (st st' : locals) (child : string * dir_entry) :
  ids_ok st →
  visit_subcat category_name image_stems st child = Ok st' →
  ids_ok st'.
Proof.
  intros Hst. destruct child as [name [|d]]; simpl; [by intros [= <-]|].
  destruct (decide (name = "sets")); [by intros [= <-]|].
  destruct (images_dir d) as [dir|]; [|by intros [= <-]].
  apply for_each_inv; [|done].
  intros ??? _. apply visit_stem_ids_ok.
Qed.

Lemma collect_ids_ok (root : category_dir) (split category_name : string)
    (imgs : list image_rec) (anns : list annotation) (cats : list category) :
  collect_annotations_for_category root split category_name = Ok (imgs, anns, cats) →
  ids_ok (Locals imgs anns (1 + Z.of_nat (length imgs)) (1 + Z.of_nat (length anns))).
Proof.
  unfold collect_annotations_for_category.
  destruct (load_labelmap (labelmap_json root)) as [m|]; simpl; [|done].
  match goal with |- context [for_each ?b ?xs ?s] =>
    destruct (for_each b xs s) as [st|] eqn:Hloop end; simpl; [|done].
  intros [= <- <- _].
  assert (ids_ok st) as Hst.
  { eapply for_each_inv; [| |exact Hloop].
    - intros ??? _. apply visit_subcat_ids_ok.
    - unfold ids_ok. simpl. repeat split; constructor. }
  destruct Hst as (? & Hic & ? & Hac & Href). unfold ids_ok. simpl.
  by rewrite <-Hic.
Qed.
End CollectorProofs.

(** C1.  In the document the collector returns, the image_id of every
    annotation is the id of exactly one record of the images list: there
    is one and only one position of that list holding a record with
    this id. *)
Theorem annotations_reference_images `{PyNum}
    (root : category_dir) (split category_name : string)
    (imgs : list image_rec) (anns : list annotation) (cats : list category) :
  collect_annotations_for_category root split category_name = Ok (imgs, anns, cats) →
  ∀ a, a ∈ anns →
    exists! i : nat, ∃ im, imgs !! i = Some im ∧ im_id im = image_id a.
Proof.
  intros (Him & _ & _ & _ & Href)%collect_ids_ok a Ha. simpl in *.
  rewrite Forall_forall in Href. specialize (Href a Ha).
  assert (∀ j, (∃ im, imgs !! j = Some im ∧ im_id im = image_id a)
               ↔ image_id a = 1 + Z.of_nat j ∧ (j < length imgs)%nat) as Hpos.
  { intros j. split.
    - intros (im & Hj & Hid).
      assert ((im_id <$> imgs) !! j = Some (image_id a)) as Hlook
        by (by rewrite list_lookup_fmap, Hj; simpl; rewrite Hid).
      rewrite Him in Hlook. apply lookup_seqZ in Hlook. lia.
    - intros [Hid Hj].
      destruct (lookup_lt_is_Some_2 imgs j Hj) as [im Him'].
      exists im. split; [done|].
      assert ((im_id <$> imgs) !! j = Some (im_id im)) as Hlook
        by (by rewrite list_lookup_fmap, Him').
      rewrite Him in Hlook. apply lookup_seqZ in Hlook. lia. }
  exists (Z.to_nat (image_id a - 1)). split.
  - apply Hpos. lia.
  - intros j Hj%Hpos. lia.
Qed.

Lemma annotations_reference_images_witness :
  @collect_annotations_for_category ZNum example_root "train" "strawberries"
    = Ok (example_images, example_anns, example_categories) ∧
  ∀ a, a ∈ example_anns →
    exists! i : nat, ∃ im, example_images !! i = Some im ∧ im_id im = image_id a.
Proof.
  split; [reflexivity|].
  apply (@annotations_reference_images ZNum example_root "train" "strawberries"
           example_images example_anns example_categories).
  reflexivity.
Defined.

(** C2.  In the document the collector returns, the image ids and the
    annotation ids are each 1, 2, 3, ... in the order of the lists,
    hence unique, ascending and without gaps whatever was skipped; and
    each pass of the loop body advances each counter by exactly the
    number of records it appended, by nothing when no file resolves. *)
Theorem ids_are_contiguous `{PyNum} :
  (∀ root split category_name imgs anns cats,
     collect_annotations_for_category root split category_name
       = Ok (imgs, anns, cats) →
     im_id <$> imgs = seqZ 1 (Z.of_nat (length imgs)) ∧
     ann_id <$> anns = seqZ 1 (Z.of_nat (length anns))) ∧
  (∀ category_name subcategory_name dir csv st stem st',
     visit_stem category_name subcategory_name dir csv st stem = Ok st' →
     image_id_counter st' - image_id_counter st
       = Z.of_nat (length (images st')) - Z.of_nat (length (images st)) ∧
     ann_id_counter st' - ann_id_counter st
       = Z.of_nat (length (anns st')) - Z.of_nat (length (anns st)) ∧
     (resolve dir stem extensions = None → st' = st)).
Proof.
  split.
  - intros root split category_name imgs anns cats
      (Him & _ & Han & _ & _)%collect_ids_ok. done.
  - intros category_name subcategory_name dir csv st stem st'
      [[? ->]|(name & w & h & new & Hres & Him & Han & Hic & Hac & _)]%visit_stem_spec.
    + split; [lia|]. split; [lia|done].
    + split; [|split].
      * rewrite Him, Hic, length_app. simpl. lia.
      * rewrite Han, Hac, length_app. lia.
      * intros Hnone. congruence.
Qed.

Lemma ids_are_contiguous_witness :
  @collect_annotations_for_category ZNum example_root "train" "strawberries"
    = Ok (example_images, example_anns, example_categories) ∧
  im_id <$> example_images = seqZ 1 (Z.of_nat (length example_images)) ∧
  ann_id <$> example_anns = seqZ 1 (Z.of_nat (length example_anns)).
Proof.
  split; [reflexivity|].
  apply (proj1 (@ids_are_contiguous ZNum) example_root "train" "strawberries"
           example_images example_anns example_categories).
  reflexivity.
Defined.

(** ** File names *)

Lemma rfind_app (c : ascii) (t e : string) :
  rfind c (t +:+ e) =
  match rfind c e with
  | Some i => Some (String.length t + i)%nat
  | None => rfind c t
  end.
Proof.
  induction t as [|a t IH]; [rewrite app_empty_l; by destruct (rfind c e)|].
  rewrite app_String. simpl. rewrite IH. by destruct (rfind c e).
Qed.

Lemma substring_app_r (t e : string) :
  String.substring (String.length t) (String.length e) (t +:+ e) = e.
Proof.
  induction t as [|a t IH]; [|by rewrite app_String].
  rewrite app_empty_l. simpl. induction e as [|b e IHe]; [done|].
  simpl. by rewrite IHe.
Qed.

Lemma extension_shape (ext : string) :
  ext ∈ extensions →
  String.length ext = 4%nat ∧ rfind "."%char ext = Some 0%nat.
Proof.
  unfold extensions. intros Hin.
  repeat (apply elem_of_cons in Hin as [->|Hin]; [done|]).
  by apply elem_of_nil in Hin.
Qed.

Lemma glob_extension_extension (ext : string) :
  ext ∈ glob_extensions → ext ∈ extensions.
Proof.
  unfold glob_extensions, extensions. intros Hin.
  repeat (apply elem_of_cons in Hin as [->|Hin]; [set_solver|]).
  by apply elem_of_nil in Hin.
Qed.

(** The stem of [stem + ext] is [stem], unless [stem] is empty. *)
Lemma py_stem_app_ext (stem ext : string) :
  stem ≠ "" → ext ∈ extensions → py_stem (stem +:+ ext) = stem.
Proof.
  intros Hne [Hlen Hdot]%extension_shape. unfold py_stem.
  rewrite rfind_app, Hdot, string_length_app, Hlen, Nat.add_0_r.
  destruct stem as [|a stem]; [done|].
  rewrite decide_True by (simpl; lia). apply substring_0_app.
Qed.

(** A name matched by one of the [glob] patterns has the extension of
    the pattern as its suffix, or no suffix when it is the bare
    extension. *)
Lemma py_suffix_glob (name gext : string) :
  gext ∈ glob_extensions → endswith name gext = true →
  py_suffix name = gext ∨ py_suffix name = "".
Proof.
  intros [Hlen Hdot]%glob_extension_extension%extension_shape [t ->]%endswith_spec.
  unfold py_suffix.
  rewrite rfind_app, Hdot, string_length_app, Hlen, Nat.add_0_r.
  case_decide; [|by right]. left.
  replace (String.length t + 4 - String.length t)%nat with (String.length gext) by lia.
  apply substring_app_r.
Qed.

Lemma app_same_length_inj (s s' e e' : string) :
  String.length e = String.length e' →
  s +:+ e = s' +:+ e' → s = s' ∧ e = e'.
Proof.
  intros Hlen. revert s'. induction s as [|a s IH]; intros [|a' s'];
    rewrite ?app_String, ?app_empty_l.
  - done.
  - intros ->. rewrite <-app_String, string_length_app in Hlen. simpl in Hlen. lia.
  - intros <-. rewrite <-app_String, string_length_app in Hlen. simpl in Hlen. lia.
  - intros [= -> [-> ->]%IH]. done.
Qed.

Lemma app_ext_inj (s s' e e' : string) :
  e ∈ extensions → e' ∈ extensions →
  s +:+ e = s' +:+ e' → s = s' ∧ e = e'.
Proof.
  intros [He _]%extension_shape [He' _]%extension_shape.
  apply app_same_length_inj. congruence.
Qed.

Lemma no_slash_String (a : ascii) (s : string) :
  no_slash (String a s) → a ≠ "/"%char ∧ no_slash s.
Proof.
  unfold no_slash. simpl. destruct (rfind "/" s); [done|].
  by case_decide.
Qed.

(** Two paths whose first components have no separator agree on the
    first component and on the rest. *)
Lemma split_at_slash (a a' r r' : string) :
  no_slash a → no_slash a' →
  a +:+ String "/" r = a' +:+ String "/" r' → a = a' ∧ r = r'.
Proof.
  revert a'. induction a as [|c a IH]; intros [|c' a'];
    rewrite ?app_String, ?app_empty_l.
  - by intros _ _ [= ->].
  - intros _ [? _]%no_slash_String [= <- _]. done.
  - intros [? _]%no_slash_String _ [= -> _]. done.
  - intros [_ Ha]%no_slash_String [_ Ha']%no_slash_String [= -> Heq].
    by destruct (IH a' Ha Ha' Heq) as [-> ->].
Qed.

Lemma image_file_name_inj (category_name sc sc' name name' : string) :
  no_slash sc → no_slash sc' →
  image_file_name category_name sc name = image_file_name category_name sc' name' →
  sc = sc' ∧ name = name'.
Proof.
  unfold image_file_name. intros Hsc Hsc' Heq.
  apply (inj (String.app category_name)) in Heq.
  change ("/" +:+ ?x) with (String "/" x) in Heq. injection Heq as Heq.
  change ("/images/" +:+ ?x) with (String "/" ("images/" +:+ x)) in Heq.
  apply split_at_slash in Heq as [-> Heq]; [|done..].
  by apply (inj (String.app "images/")) in Heq.
Qed.

Lemma elem_of_subcat_images (dir : gmap string image_file) (stem : string) :
  stem ∈ subcat_images dir ↔
  ∃ sibling gext,
    gext ∈ glob_extensions ∧ is_Some (dir !! sibling) ∧
    endswith sibling gext = true ∧ py_stem sibling = stem.
Proof.
  unfold subcat_images, glob_stems, glob_extensions.
  rewrite !elem_of_union, !elem_of_map.
  setoid_rewrite elem_of_filter. setoid_rewrite elem_of_dom. split.
  - intros [[[(n & -> & ? & ?)|(n & -> & ? & ?)]|(n & -> & ? & ?)]|(n & -> & ? & ?)];
      exists n; eexists; (split; [|done]); set_solver.
  - intros (n & gext & Hin & ? & ? & <-).
    repeat (apply elem_of_cons in Hin as [->|Hin]; [naive_solver|]).
    by apply elem_of_nil in Hin.
Qed.

(** A stem all of whose files are BMP files is not among the stems the
    [glob] calls collect. *)
Lemma bmp_only_not_globbed (dir : gmap string image_file) (stem : string) :
  bmp_only dir stem → stem ∉ subcat_images dir.
Proof.
  intros Hbmp (sibling & gext & Hgext & [img Hfile] & Hends & Hstem)%elem_of_subcat_images.
  specialize (Hbmp sibling img Hfile Hstem).
  destruct (py_suffix_glob sibling gext Hgext Hends) as [Hsuf|Hsuf];
    rewrite Hsuf in Hbmp; [|by destruct Hbmp].
  unfold glob_extensions in Hgext.
  repeat (apply elem_of_cons in Hgext as [->|Hgext]; [by destruct Hbmp|]).
  by apply elem_of_nil in Hgext.
Qed.

Lemma elem_of_read_split_list_nonempty (split_file : option (list string))
    (stem : string) :
  stem ∈ read_split_list split_file → stem ≠ "".
Proof.
  destruct split_file as [text|]; simpl; [|by intros ?%elem_of_nil].
  by intros [? _]%list_elem_of_filter.
Qed.

(** ** The collector: where image records come from *)

Lemma elem_of_selected_stems (image_stems : gset string)
    (dir : gmap string image_file) (stem : string) :
  stem ∈ selected_stems image_stems dir ↔
  stem ∈ image_stems ∧ stem ∈ subcat_images dir.
Proof.
  unfold selected_stems.
  by rewrite merge_sort_Permutation, elem_of_elements, elem_of_intersection.
Qed.

Section Provenance.
Context `{PyNum}.

Lemma visit_stem_emitted (root : category_dir) (split category_name : string)
    (sc : string) (d : subcat_dir) (dir : gmap string image_file)
    (st st' : locals) (stem : string) :
  (sc, Directory d) ∈ iterdir root → images_dir d = Some dir →
  stem ∈ split_names root split → stem ∈ subcat_images dir →
  Forall (emitted root split category_name) (images st) →
  visit_stem category_name sc dir (annotations_dir d) st stem = Ok st' →
  Forall (emitted root split category_name) (images st').
Proof.
  intros Hchild Hdir Hsplit Hglob Hst
    [[_ ->]|(name & w & h & new & Hres & -> & _)]%visit_stem_spec; [done|].
  apply Forall_app. split; [done|]. constructor; [|constructor].
  apply resolve_Some in Hres as (ext & Hext & -> & Hfile).
  exists sc, stem, ext, dir. split; [|split; [done|]].
  - split; [by exists d|done].
  - by apply elem_of_subcat_images.
Qed.

Lemma visit_subcat_emitted (root : category_dir) (split category_name : string)
    (st st' : locals) (child : string * dir_entry) :
  child ∈ iterdir root →
  Forall (emitted root split category_name) (images st) →
  visit_subcat category_name (list_to_set (split_names root split)) st child = Ok st' →
  Forall (emitted root split category_name) (images st').
Proof.
  intros Hchild Hst. destruct child as [sc [|d]]; simpl; [by intros [= <-]|].
  destruct (decide (sc = "sets")); [by intros [= <-]|].
  destruct (images_dir d) as [dir|] eqn:Hdir; [|by intros [= <-]].
  apply (for_each_inv (λ st, Forall (emitted root split category_name) (images st)));
    [|done].
  intros s stem s' [Hsplit%elem_of_list_to_set Hglob]%elem_of_selected_stems.
  by apply visit_stem_emitted.
Qed.

Lemma collect_emitted (root : category_dir) (split category_name : string)
    (imgs : list image_rec) (anns : list annotation) (cats : list category) :
  collect_annotations_for_category root split category_name = Ok (imgs, anns, cats) →
  Forall (emitted root split category_name) imgs.
Proof.
  unfold collect_annotations_for_category.
  destruct (load_labelmap (labelmap_json root)) as [m|]; simpl; [|done].
  match goal with |- context [for_each ?b ?xs ?s] =>
    destruct (for_each b xs s) as [st|] eqn:Hloop end; simpl; [|done].
  intros [= <- _ _].
  eapply (for_each_inv (λ st, Forall (emitted root split category_name) (images st)));
    [| |exact Hloop].
  - intros ???. apply visit_subcat_emitted.
  - constructor.
Qed.

(** A record written for one file cannot carry the file name of
    another file of the dataset. *)
Lemma emitted_for_file_name (root : category_dir) (category_name : string)
    (sc stem ext sc' stem' ext' : string) (dir' : gmap string image_file)
    (im : image_rec) :
  slash_free root → sc ∈ (iterdir root).*1 → ext ∈ extensions →
  emitted_for root category_name sc' stem' ext' dir' im →
  file_name im = image_file_name category_name sc (stem +:+ ext) →
  sc' = sc ∧ stem' = stem.
Proof.
  intros Hfree ([sc0 e] & -> & Hsc)%list_elem_of_fmap Hext
    ((d' & Hsc' & _) & Hext' & _ & ->) Heq.
  unfold slash_free in Hfree. rewrite Forall_forall in Hfree.
  apply image_file_name_inj in Heq as [-> Heq];
    [|exact (Hfree _ Hsc')|exact (Hfree _ Hsc)].
  by apply app_ext_inj in Heq as [-> _].
Qed.
End Provenance.

(** C8.  Every image record of the document was written for a file
    [stem + ext] of a child directory whose base name [stem] is one of
    the names of the split file; so no record carries the file name of
    an image whose base name is not in the split file, whatever files
    exist for it on disk. *)
Theorem emitted_images_are_in_split `{PyNum}
    (root : category_dir) (split category_name : string)
    (imgs : list image_rec) (anns : list annotation) (cats : list category) :
  collect_annotations_for_category root split category_name = Ok (imgs, anns, cats) →
  (∀ im, im ∈ imgs →
     ∃ sc stem ext dir,
       emitted_for root category_name sc stem ext dir im ∧
       py_stem (stem +:+ ext) = stem ∧
       stem ∈ split_names root split) ∧
  (slash_free root →
   ∀ sc stem ext,
     sc ∈ (iterdir root).*1 → ext ∈ extensions →
     stem ∉ split_names root split →
     ∀ im, im ∈ imgs →
       file_name im ≠ image_file_name category_name sc (stem +:+ ext)).
Proof.
  intros Hem%collect_emitted. rewrite Forall_forall in Hem. split.
  - intros im (sc & stem & ext & dir & Hfor & Hsplit & _)%Hem.
    exists sc, stem, ext, dir. split; [done|]. split; [|done].
    apply py_stem_app_ext.
    + by eapply elem_of_read_split_list_nonempty.
    + by destruct Hfor as (_ & ? & _).
  - intros Hfree sc stem ext Hsc Hext Hnot im
      (sc' & stem' & ext' & dir' & Hfor & Hsplit & _)%Hem Heq.
    destruct (emitted_for_file_name root category_name sc stem ext
                sc' stem' ext' dir' im) as [_ ->]; done.
Qed.

Lemma emitted_images_are_in_split_witness :
  @collect_annotations_for_category ZNum example_root "train" "strawberries"
    = Ok (example_images, example_anns, example_categories) ∧
  slash_free example_root ∧
  ¬ ("d" ∈ split_names example_root "train") ∧
  ∀ im, im ∈ example_images →
    file_name im ≠ image_file_name "strawberries" "healthy" ("d" +:+ ".jpg").
Proof.
  assert (slash_free example_root) as Hfree by (repeat constructor).
  assert (¬ ("d" ∈ split_names example_root "train")) as Hnot
    by (apply (bool_decide_unpack _); vm_compute; exact I).
  split; [reflexivity|]. split; [exact Hfree|]. split; [exact Hnot|].
  apply (proj2 (@emitted_images_are_in_split ZNum example_root "train" "strawberries"
                  example_images example_anns example_categories eq_refl) Hfree).
  - apply (bool_decide_unpack _). vm_compute. exact I.
  - apply (bool_decide_unpack _). vm_compute. exact I.
  - exact Hnot.
Defined.

(** C10.  Every image record of the document was written for a stem
    that has a file matched by one of the four glob patterns (jpg, JPG,
    png, PNG); so an image all of whose files carry the suffix .bmp or
    .BMP is never emitted, although the extension list tried for a
    selected stem includes .bmp and .BMP. *)
Theorem bmp_only_images_are_never_emitted `{PyNum}
    (root : category_dir) (split category_name : string)
    (imgs : list image_rec) (anns : list annotation) (cats : list category) :
  collect_annotations_for_category root split category_name = Ok (imgs, anns, cats) →
  (∀ im, im ∈ imgs → emitted root split category_name im) ∧
  (slash_free root →
   ∀ sc stem ext,
     sc ∈ (iterdir root).*1 → ext ∈ extensions →
     (∀ d dir, (sc, Directory d) ∈ iterdir root → images_dir d = Some dir →
        bmp_only dir stem) →
     ∀ im, im ∈ imgs →
       file_name im ≠ image_file_name category_name sc (stem +:+ ext)).
Proof.
  intros Hem%collect_emitted. rewrite Forall_forall in Hem. split; [done|].
  intros Hfree sc stem ext Hsc Hext Hbmp im
    (sc' & stem' & ext' & dir' & Hfor & _ & Hglob%elem_of_subcat_images)%Hem Heq.
  destruct (emitted_for_file_name root category_name sc stem ext
              sc' stem' ext' dir' im) as [-> ->]; [done..|].
  destruct Hfor as ((d' & Hchild & Hdir) & _).
  by apply (bmp_only_not_globbed dir' stem (Hbmp d' dir' Hchild Hdir)).
Qed.

Lemma bmp_only_images_are_never_emitted_witness :
  @collect_annotations_for_category ZNum example_root "train" "strawberries"
    = Ok (example_images, example_anns, example_categories) ∧
  slash_free example_root ∧
  "c" ∈ split_names example_root "train" ∧
  (∀ d dir, ("healthy", Directory d) ∈ iterdir example_root →
     images_dir d = Some dir → is_Some (dir !! "c.bmp") ∧ bmp_only dir "c") ∧
  ∀ im, im ∈ example_images →
    file_name im ≠ image_file_name "strawberries" "healthy" ("c" +:+ ".bmp").
Proof.
  assert (slash_free example_root) as Hfree by (repeat constructor).
  assert (∀ d dir, ("healthy", Directory d) ∈ iterdir example_root →
            images_dir d = Some dir → is_Some (dir !! "c.bmp") ∧ bmp_only dir "c")
    as Hbmp.
  { intros d dir Hin Hdir. simpl in Hin.
    repeat (apply elem_of_cons in Hin as [Hin|Hin]; [try discriminate Hin|]);
      [|by apply elem_of_nil in Hin].
    injection Hin as ->. injection Hdir as <-. split.
    - apply (bool_decide_unpack _). vm_compute. exact I.
    - apply (bool_decide_unpack _). vm_compute. exact I. }
  split; [reflexivity|]. split; [exact Hfree|].
  split; [apply (bool_decide_unpack _); vm_compute; exact I|].
  split; [exact Hbmp|].
  apply (proj2 (@bmp_only_images_are_never_emitted ZNum example_root "train"
                  "strawberries" example_images example_anns example_categories
                  eq_refl) Hfree).
  - apply (bool_decide_unpack _). vm_compute. exact I.
  - apply (bool_decide_unpack _). vm_compute. exact I.
  - intros d dir Hin Hdir. exact (proj2 (Hbmp d dir Hin Hdir)).
Defined.

(** ** Traversal order *)

(** Within one subcategory the stems are visited in ascending order,
    each once, whatever the order of the split file and of the folder. *)
Lemma selected_stems_sorted (image_stems : gset string)
    (dir : gmap string image_file) :
  StronglySorted String.le (selected_stems image_stems dir) ∧
  NoDup (selected_stems image_stems dir).
Proof.
  unfold selected_stems. split.
  - apply (StronglySorted_merge_sort _).
  - rewrite merge_sort_Permutation. apply NoDup_elements.
Qed.

(** C3.  The children of the category root are visited in the order
    [iterdir()] yields them, which is not sorted: the same directory
    with its children listed in another order is collected into a
    different document (the image and annotation ids move). *)
Theorem iterdir_order_changes_document :
  labelmap_json example_root_reordered = labelmap_json example_root ∧
  sets_dir example_root_reordered = sets_dir example_root ∧
  iterdir example_root_reordered ≡ₚ iterdir example_root ∧
  @collect_annotations_for_category ZNum example_root_reordered "train" "strawberries"
    ≠ @collect_annotations_for_category ZNum example_root "train" "strawberries".
Proof.
  split; [done|]. split; [done|]. split.
  - change (iterdir example_root_reordered) with (reverse (iterdir example_root)).
    apply reverse_Permutation.
  - intros Heq. vm_compute in Heq. discriminate Heq.
Qed.

(** ** The collector returns on readable input *)

Lemma for_each_is_ok {S A} (body : S → A → result S) (xs : list A) (s : S) :
  (∀ s x, x ∈ xs → is_ok (body s x)) → is_ok (for_each body xs s).
Proof.
  revert s. induction xs as [|x xs IH]; intros s Hbody; simpl; [done|].
  pose proof (Hbody s x (list_elem_of_here _ _)) as Hx.
  destruct (body s x) as [s1|]; simpl; [|done].
  apply IH. intros ?? Hin. apply Hbody. by right.
Qed.

Lemma collect_returns `{PyNum} (root : category_dir) (split category_name : string) :
  readable root →
  is_ok (collect_annotations_for_category root split category_name).
Proof.
  intros [Hmap Hchildren]. unfold collect_annotations_for_category.
  destruct (load_labelmap (labelmap_json root)) as [m|]; simpl; [|done].
  match goal with |- context [for_each ?b ?xs ?s] =>
    pose proof (for_each_is_ok b xs s) as Hloop;
    destruct (for_each b xs s) as [st|] end; simpl; [done|].
  apply Hloop. clear Hloop. intros st [sc [|d]] Hin; simpl; [done|].
  destruct (decide (sc = "sets")); [done|].
  destruct (images_dir d) as [dir|] eqn:Hdir; [|done].
  rewrite Forall_forall in Hchildren.
  destruct (Hchildren _ Hin) as [Himages Hcsv]. simpl in *.
  apply for_each_is_ok. intros st' stem _. unfold visit_stem.
  destruct (resolve dir stem extensions) as [name|] eqn:Hres; [|done].
  apply resolve_Some in Hres as (ext & _ & _ & [img Himg]).
  rewrite Himg. pose proof (Himages dir Hdir name img Himg) as Hopen.
  destruct img as [w h|]; [|done]. simpl.
  destruct (annotations_dir d !! (stem +:+ ".csv")) as [f|] eqn:Hf; [|done].
  by rewrite (parse_csv_boxes_full f (Hcsv _ _ Hf)).
Qed.

(** * Further properties of the script *)

Local Set Warnings "-clear-no-such-hyp".

(** ** The box parser: defaults and failures *)

Lemma insert_cells_lookup_None (cells : list (string * string)) (d : row_dict)
    (key : string) :
  d !! key = None → key ∉ cells.*1 →
  foldl (λ d kv, <[kv.1 := Some kv.2]> d) d cells !! key = None.
Proof.
  revert d. induction cells as [|[k v] cells IH]; intros d Hd Hnot; simpl; [done|].
  apply not_elem_of_cons in Hnot as [Hne Hnot]. simpl in Hne.
  apply IH; [|done]. by rewrite lookup_insert_ne.
Qed.

Lemma insert_cells_lookup_cell (cells : list (string * string)) (d : row_dict)
    (key : string) :
  foldl (λ d kv, <[kv.1 := Some kv.2]> d) d cells !! key = Some None →
  d !! key = Some None.
Proof.
  revert d. induction cells as [|[k v] cells IH]; intros d; simpl; [done|].
  intros Hd%IH. destruct (decide (k = key)) as [->|].
  - by rewrite lookup_insert_eq in Hd.
  - by rewrite lookup_insert_ne in Hd.
Qed.

Lemma insert_restval_lookup (keys : list string) (d : row_dict) (key : string) :
  foldl (λ d k, <[k := None]> d) d keys !! key =
  if decide (key ∈ keys) then Some None else d !! key.
Proof.
  revert d. induction keys as [|k keys IH]; intros d.
  - simpl foldl. destruct (decide (key ∈ [])) as [Hin|]; [by apply elem_of_nil in Hin|done].
  - simpl foldl. rewrite IH.
    destruct (decide (key ∈ keys)) as [Hin|Hin], (decide (key ∈ k :: keys)) as [Hin'|Hin'];
      try done.
    + destruct Hin'. by right.
    + apply elem_of_cons in Hin' as [->|?]; [|done]. by rewrite lookup_insert_eq.
    + rewrite lookup_insert_ne; [done|]. intros ->. apply Hin'. by left.
Qed.

(** A name that is not a column of the header is not a key of the row. *)
Lemma make_row_lookup_not_column (fieldnames row : list string) (key : string) :
  key ∉ fieldnames → make_row fieldnames row !! key = None.
Proof.
  intros Hnot. unfold make_row. rewrite insert_restval_lookup.
  rewrite decide_False.
  - apply insert_cells_lookup_None; [apply lookup_empty|].
    intros ([k v] & -> & Hin)%list_elem_of_fmap. simpl in Hnot.
    apply Hnot. by eapply elem_of_zip_l.
  - intros Hin. apply Hnot. by eapply subseteq_drop.
Qed.

(** A key holds [None] only for a column beyond the end of the record. *)
Lemma make_row_lookup_restval (fieldnames row : list string) (key : string) :
  make_row fieldnames row !! key = Some None →
  key ∈ drop (length row) fieldnames.
Proof.
  unfold make_row. rewrite insert_restval_lookup.
  destruct (decide (key ∈ drop (length row) fieldnames)); [done|].
  intros Hd%insert_cells_lookup_cell. by rewrite lookup_empty in Hd.
Qed.

Lemma py_float_TypeError `{PyNum} (row : row_dict) (key : string) (z : Z) :
  py_float (row_get row key (PyInt z)) = Raise TypeError → row !! key = Some None.
Proof.
  unfold py_float, row_get. destruct (row !! key) as [[s|]|]; [|done..].
  by destruct (float_of_str s).
Qed.

Lemma py_int_TypeError `{PyNum} (row : row_dict) (key : string) (z : Z) :
  py_int (row_get row key (PyInt z)) = Raise TypeError → row !! key = Some None.
Proof.
  unfold py_int, row_get. destruct (row !! key) as [[s|]|]; [|done..].
  by destruct (int_of_str s).
Qed.

Lemma parse_row_TypeError `{PyNum} (row : row_dict) :
  parse_row row = Raise TypeError →
  ∃ key, key ∈ header ∧ row !! key = Some None.
Proof.
  unfold parse_row, header.
  destruct (py_float (row_get row "x" _)) as [x|e] eqn:Hx; simpl.
  2:{ intros [= ->]. exists "x". split; [set_solver|by eapply py_float_TypeError]. }
  destruct (py_float (row_get row "y" _)) as [y|e] eqn:Hy; simpl.
  2:{ intros [= ->]. exists "y". split; [set_solver|by eapply py_float_TypeError]. }
  destruct (py_float (row_get row "width" _)) as [w|e] eqn:Hw; simpl.
  2:{ intros [= ->]. exists "width". split; [set_solver|by eapply py_float_TypeError]. }
  destruct (py_float (row_get row "height" _)) as [h|e] eqn:Hh; simpl.
  2:{ intros [= ->]. exists "height". split; [set_solver|by eapply py_float_TypeError]. }
  destruct (py_int (row_get row "label" _)) as [l|e] eqn:Hl; simpl; [done|].
  intros [= ->]. exists "label". split; [set_solver|by eapply py_int_TypeError].
Qed.

Lemma parse_rows_Raise `{PyNum} (rows : list row_dict) (acc : list box) (e : exn) :
  parse_rows rows acc = Raise e →
  e = TypeError ∧ ∃ row, row ∈ rows ∧ parse_row row = Raise TypeError.
Proof.
  revert acc. induction rows as [|row rows IH]; intros acc; simpl; [done|].
  destruct (parse_row row) as [[b|]|e'] eqn:Hrow.
  - intros (-> & row' & ? & ?)%IH. split; [done|]. exists row'. split; [by right|done].
  - intros (-> & row' & ? & ?)%IH. split; [done|]. exists row'. split; [by right|done].
  - pose proof (parse_row_spec row) as Hspec. rewrite Hrow in Hspec.
    destruct Hspec as [_ [->|[-> _]]].
    + intros (-> & row' & ? & ?)%IH. split; [done|].
      exists row'. split; [by right|done].
    + intros [= <-]. split; [done|]. exists row. split; [by left|done].
Qed.

(** X1.  The only exception [parse_csv_boxes] lets through is
    [TypeError], and only when some non-blank data record is too short
    to reach one of the columns x, y, width, height, label of the
    header. *)
Theorem parse_csv_boxes_raises_only_TypeError `{PyNum} (f : csv_file) (e : exn) :
  parse_csv_boxes (Some f) = Raise e →
  e = TypeError ∧
  ∃ fieldnames records record key,
    f = fieldnames :: records ∧ record ∈ records ∧ record ≠ [] ∧
    key ∈ header ∧ key ∈ drop (length record) fieldnames.
Proof.
  simpl. intros (-> & row & Hrow & (key & Hkey & Hnone)%parse_row_TypeError)%parse_rows_Raise.
  split; [done|]. destruct f as [|fieldnames records]; simpl in Hrow.
  { by apply elem_of_nil in Hrow. }
  apply list_elem_of_fmap in Hrow as (record & -> & [Hne Hin]%list_elem_of_filter).
  exists fieldnames, records, record, key. repeat split; try done.
  by apply make_row_lookup_restval.
Qed.

Lemma parse_csv_boxes_raises_only_TypeError_witness :
  @parse_csv_boxes ZNum (Some csv_short_record) = Raise TypeError ∧
  TypeError = TypeError ∧
  ∃ fieldnames records record key,
    csv_short_record = fieldnames :: records ∧ record ∈ records ∧ record ≠ [] ∧
    key ∈ header ∧ key ∈ drop (length record) fieldnames.
Proof.
  split; [reflexivity|].
  apply (@parse_csv_boxes_raises_only_TypeError ZNum csv_short_record TypeError).
  reflexivity.
Defined.

Lemma spec_box_category_id `{PyNum} (row : row_dict) (b : box) :
  row !! "label" = None → spec_box row = Some b → category_id b = 1.
Proof.
  intros Hlabel (x & y & w & h & l & _ & _ & _ & _ & Hl & _ & _ & ->)%spec_box_Some.
  unfold row_get in Hl. rewrite Hlabel in Hl. simpl in Hl. by injection Hl as <-.
Qed.

(** X2.  When the header has no [label] column every box gets the
    default category id 1. *)
Theorem parse_csv_boxes_default_label `{PyNum}
    (fieldnames : list string) (records : list (list string)) (boxes : list box) :
  "label" ∉ fieldnames →
  parse_csv_boxes (Some (fieldnames :: records)) = Ok boxes →
  Forall (λ b, category_id b = 1) boxes.
Proof.
  intros Hnot Hok. simpl in Hok.
  pose proof (parse_rows_spec (DictReader (fieldnames :: records)) []) as Hspec.
  simpl in Hspec. rewrite Hok in Hspec. subst boxes. simpl.
  apply Forall_forall. intros b (row & Hrow & Hb)%list_elem_of_omap.
  apply list_elem_of_fmap in Hrow as (record & -> & _).
  eapply spec_box_category_id; [|done]. by apply make_row_lookup_not_column.
Qed.

Lemma parse_csv_boxes_default_label_witness :
  ("label" ∉ ["x"; "y"; "width"; "height"]) ∧
  @parse_csv_boxes ZNum (Some csv_no_label) = Ok [@Box ZNum [0; 0; 2; 2] 4 1] ∧
  Forall (λ b : @box ZNum, category_id b = 1) [@Box ZNum [0; 0; 2; 2] 4 1].
Proof.
  assert ("label" ∉ ["x"; "y"; "width"; "height"]) as Hnot
    by (apply (bool_decide_unpack _); vm_compute; exact I).
  split; [exact Hnot|]. split; [reflexivity|].
  apply (@parse_csv_boxes_default_label ZNum ["x"; "y"; "width"; "height"]
           [["0"; "0"; "2"; "2"]] _ Hnot).
  reflexivity.
Defined.

(** X3.  When the header has no [width] column, or no [height] column,
    the size defaults to 0, which is not positive: no box is returned. *)
Theorem parse_csv_boxes_without_size_column `{PyNum}
    (fieldnames : list string) (records : list (list string)) (boxes : list box) :
  fgt0 (float_of_int 0) = false →
  "width" ∉ fieldnames ∨ "height" ∉ fieldnames →
  parse_csv_boxes (Some (fieldnames :: records)) = Ok boxes →
  boxes = [].
Proof.
  intros Hzero Hnot Hok. simpl in Hok.
  pose proof (parse_rows_spec (DictReader (fieldnames :: records)) []) as Hspec.
  simpl in Hspec. rewrite Hok in Hspec. subst boxes. simpl.
  apply elem_of_nil_inv. intros b (row & Hrow & Hb)%list_elem_of_omap.
  apply list_elem_of_fmap in Hrow as (record & -> & _).
  apply spec_box_Some in Hb as (x & y & w & h & l & _ & _ & Hw & Hh & _ & Hwp & Hhp & _).
  unfold row_get in Hw, Hh. destruct Hnot as [Hnot|Hnot].
  - rewrite (make_row_lookup_not_column _ _ _ Hnot) in Hw. simpl in Hw.
    injection Hw as <-. congruence.
  - rewrite (make_row_lookup_not_column _ _ _ Hnot) in Hh. simpl in Hh.
    injection Hh as <-. congruence.
Qed.

Lemma parse_csv_boxes_without_size_column_witness :
  @fgt0 ZNum (@float_of_int ZNum 0) = false ∧
  (("width" ∉ ["x"; "y"; "height"]) ∨ ("height" ∉ ["x"; "y"; "height"])) ∧
  @parse_csv_boxes ZNum (Some [["x"; "y"; "height"]; ["1"; "2"; "3"]]) = Ok [] ∧
  ([] : list (@box ZNum)) = [].
Proof.
  assert ("width" ∉ ["x"; "y"; "height"]) as Hnot
    by (apply (bool_decide_unpack _); vm_compute; exact I).
  split; [reflexivity|]. split; [by left|]. split; [reflexivity|].
  apply (@parse_csv_boxes_without_size_column ZNum ["x"; "y"; "height"]
           [["1"; "2"; "3"]] [] eq_refl (or_introl Hnot)).
  reflexivity.
Defined.

(** ** The label map: duplicate ids and sizes *)

Lemma names_labelmap_pair (item : labelmap_item) (key : Z) (name : string) :
  names item key name ↔ labelmap_pair item = Some (key, name).
Proof.
  unfold names, labelmap_pair. destruct item as [[n|] [k|]]; simpl.
  - case_decide; naive_solver.
  - naive_solver.
  - naive_solver.
  - naive_solver.
Qed.

Lemma load_items_cons (item : labelmap_item) (rest : list labelmap_item)
    (m0 m : gmap Z string) :
  load_items (item :: rest) m0 = Ok m →
  load_items rest
    (match labelmap_pair item with
     | Some (key, name) => <[key := name]> m0
     | None => m0
     end) = Ok m.
Proof.
  unfold labelmap_pair. destruct item as [[n|] [k|]]; simpl; try done;
    case_decide; simpl; done.
Qed.

Lemma last_named_cons (item : labelmap_item) (rest : list labelmap_item)
    (key : Z) (name : string) :
  last_named (item :: rest) key name ↔
  last_named rest key name ∨ (names item key name ∧ unnamed rest key).
Proof.
  split.
  - intros ([|item' before] & it & after & Heq & Hnames & Hafter); simplify_eq/=.
    + by right.
    + left. by exists before, it, after.
  - intros [(before & it & after & -> & Hnames & Hafter)|[Hnames Hafter]].
    + by exists (item :: before), it, after.
    + by exists [], item, rest.
Qed.

Lemma load_items_last (items : list labelmap_item) (m0 m : gmap Z string) :
  load_items items m0 = Ok m →
  ∀ key name,
    m !! key = Some name ↔
    last_named items key name ∨ (unnamed items key ∧ m0 !! key = Some name).
Proof.
  revert m0. induction items as [|item rest IH]; intros m0.
  - intros [= <-] key name. split.
    + intros Hm. right. split; [constructor|done].
    + intros [([|??] & ? & ? & ? & _)|[_ ?]]; simplify_eq/=. done.
  - intros Hload%load_items_cons key name.
    rewrite (IH _ Hload), last_named_cons. unfold unnamed at 3.
    rewrite Forall_cons. fold (unnamed rest key).
    destruct (labelmap_pair item) as [[k n]|] eqn:Hpair.
    + apply names_labelmap_pair in Hpair.
      assert (∀ k' n', names item k' n' ↔ k' = k ∧ n' = n) as Hitem.
      { intros k' n'. unfold names in *. naive_solver. }
      destruct (decide (k = key)) as [->|Hne].
      * rewrite lookup_insert_eq. setoid_rewrite Hitem. naive_solver.
      * rewrite lookup_insert_ne by done. setoid_rewrite Hitem. naive_solver.
    + assert (∀ k' n', ¬ names item k' n') as Hitem.
      { intros k' n' Hn%names_labelmap_pair. congruence. }
      naive_solver.
Qed.

(** X4.  The mapping sends a label id to the object_name of the last
    object with this id that is not the background: a later object
    overwrites an earlier one with the same label_id, and an id occurs
    only if some such object carries it. *)
Theorem load_labelmap_last_wins (items : list labelmap_item) (m : gmap Z string) :
  load_labelmap (Some (JSONArray items)) = Ok m →
  ∀ key name, m !! key = Some name ↔ last_named items key name.
Proof.
  intros Hload key name. simpl in Hload.
  rewrite (load_items_last items ∅ m Hload), lookup_empty. naive_solver.
Qed.

Lemma load_labelmap_last_wins_witness :
  load_labelmap (Some (JSONArray
    [LabelmapItem (Some "ripe") (Some 1); LabelmapItem (Some "red") (Some 1)]))
    = Ok {[1 := "red"]} ∧
  (({[1 := "red"]} : gmap Z string) !! 1 = Some "red" ↔
   last_named [LabelmapItem (Some "ripe") (Some 1); LabelmapItem (Some "red") (Some 1)]
     1 "red").
Proof.
  split; [reflexivity|].
  apply (load_labelmap_last_wins
           [LabelmapItem (Some "ripe") (Some 1); LabelmapItem (Some "red") (Some 1)]).
  reflexivity.
Defined.

Lemma foldl_insert_list_to_map (l : list (Z * string)) :
  foldl (λ m p, <[p.1 := p.2]> m) (∅ : gmap Z string) l = list_to_map (reverse l).
Proof.
  induction l as [|p l IH] using rev_ind; [done|].
  by rewrite foldl_app, reverse_snoc, IH.
Qed.

Lemma load_items_pairs (items : list labelmap_item) (m0 m : gmap Z string) :
  load_items items m0 = Ok m →
  m = foldl (λ m p, <[p.1 := p.2]> m) m0 (omap labelmap_pair items).
Proof.
  revert m0. induction items as [|item rest IH]; intros m0.
  - by intros [= <-].
  - intros Hload%load_items_cons. apply IH in Hload as ->. simpl.
    by destruct (labelmap_pair item) as [[k n]|].
Qed.

(** When the loader returns, every object has a name and every
    foreground object an id, so the stored entries are those of the
    foreground objects. *)
Lemma load_items_foreground (items : list labelmap_item) (m0 m : gmap Z string) :
  load_items items m0 = Ok m →
  (omap labelmap_pair items).*1 = omap label_id (foreground items) ∧
  length (omap labelmap_pair items) = length (foreground items).
Proof.
  intros Hload. pose proof (load_items_spec items m0) as Hspec.
  rewrite Hload in Hspec. clear Hload. unfold foreground.
  induction Hspec as [|item rest Hitem _ [IH1 IH2]]; [done|].
  unfold missing_field in Hitem. rewrite filter_cons.
  assert (labelmap_pair item =
          (if decide (object_name item ≠ Some "background")
           then match label_id item, object_name item with
                | Some k, Some n => Some (k, n)
                | _, _ => None
                end
           else None)
          ∧ (object_name item ≠ Some "background" → is_Some (label_id item)))
    as [Hpair Hid].
  { unfold labelmap_pair. destruct item as [[n|] [k|]]; simpl in *.
    - split; [|by eauto]. repeat case_decide; naive_solver.
    - split; [|naive_solver]. rewrite decide_False; [done|]. naive_solver.
    - naive_solver.
    - naive_solver. }
  simpl. rewrite Hpair. case_decide as Hfg; [|done].
  destruct (Hid Hfg) as [k Hk]. rewrite Hk.
  destruct (object_name item) as [n|]; [|naive_solver].
  simpl. rewrite Hk. simpl. split; by f_equal.
Qed.

(** X5.  When the label ids of the objects other than the background
    are pairwise distinct, the category list has one entry per such
    object: as many entries as objects, and the entry of each object
    carries its id and its name. *)
Theorem categories_of_distinct_ids (items : list labelmap_item) (m : gmap Z string)
    (category_name : string) :
  load_labelmap (Some (JSONArray items)) = Ok m →
  NoDup (omap label_id (foreground items)) →
  length (categories_of m category_name) = length (foreground items) ∧
  ∀ item key name, item ∈ items → names item key name →
    Category key name (supercategory_of category_name)
      ∈ categories_of m category_name.
Proof.
  intros Hload Hnodup. simpl in Hload.
  destruct (load_items_foreground items ∅ m Hload) as [Hfst Hlen].
  rewrite <-Hfst in Hnodup. rewrite <-Hlen.
  apply load_items_pairs in Hload. rewrite foldl_insert_list_to_map in Hload.
  assert (map_to_list m ≡ₚ omap labelmap_pair items) as Hperm.
  { subst m. rewrite map_to_list_to_map.
    - apply reverse_Permutation.
    - by rewrite fmap_reverse, reverse_Permutation. }
  split.
  - unfold categories_of, sorted_items.
    by rewrite length_fmap, merge_sort_Permutation, Hperm.
  - intros item key name Hin Hnames%names_labelmap_pair.
    apply elem_of_categories_of. simpl. split; [|done].
    apply elem_of_map_to_list. rewrite Hperm.
    apply list_elem_of_omap. by exists item.
Qed.

Lemma categories_of_distinct_ids_witness :
  load_labelmap (Some example_labelmap) = Ok {[1 := "ripe"; 2 := "unripe"]} ∧
  NoDup (omap label_id (foreground
    [LabelmapItem (Some "ripe") (Some 1); LabelmapItem (Some "unripe") (Some 2);
     LabelmapItem (Some "background") (Some 0)])) ∧
  length (categories_of {[1 := "ripe"; 2 := "unripe"]} "strawberries") = 2%nat.
Proof.
  assert (NoDup (omap label_id (foreground
    [LabelmapItem (Some "ripe") (Some 1); LabelmapItem (Some "unripe") (Some 2);
     LabelmapItem (Some "background") (Some 0)]))) as Hnodup.
  { apply (bool_decide_unpack _). vm_compute. exact I. }
  split; [reflexivity|]. split; [exact Hnodup|].
  assert (load_labelmap (Some example_labelmap) = Ok {[1 := "ripe"; 2 := "unripe"]})
    as Hload by reflexivity.
  exact (proj1 (categories_of_distinct_ids _ _ "strawberries" Hload Hnodup)).
Defined.

(** ** The split reader: what [strip] leaves *)

Lemma string_app_assoc (s t u : string) : (s +:+ t) +:+ u = s +:+ (t +:+ u).
Proof. induction s as [|a s IH]; [done|]. by rewrite !app_String, IH. Qed.

Lemma string_app_empty_r (s : string) : s +:+ "" = s.
Proof. induction s as [|a s IH]; [done|]. by rewrite app_String, IH. Qed.

Lemma rev_app_app (s1 s2 s3 : string) :
  String.rev_app s1 s2 +:+ s3 = String.rev_app s1 (s2 +:+ s3).
Proof. revert s2. induction s1 as [|a s1 IH]; intros s2; simpl; [done|]. by rewrite IH. Qed.

Lemma rev_String (a : ascii) (s : string) :
  String.rev (String a s) = String.rev s +:+ String a "".
Proof. unfold String.rev. simpl. by rewrite rev_app_app. Qed.

Lemma rev_snoc (a : ascii) (s : string) :
  String.rev (s +:+ String a "") = String a (String.rev s).
Proof.
  induction s as [|b s IH]; [done|].
  by rewrite app_String, !rev_String, IH.
Qed.

Lemma rev_app_distr (s t : string) :
  String.rev (s +:+ t) = String.rev t +:+ String.rev s.
Proof.
  induction s as [|a s IH].
  - by rewrite app_empty_l, string_app_empty_r.
  - by rewrite app_String, !rev_String, IH, string_app_assoc.
Qed.

Lemma rev_involutive (s : string) : String.rev (String.rev s) = s.
Proof.
  induction s as [|a s IH]; [done|]. by rewrite rev_String, rev_snoc, IH.
Qed.

Lemma rev_empty_inv (s : string) : String.rev s = "" → s = "".
Proof. intros Hrev. by rewrite <-(rev_involutive s), Hrev. Qed.

(** The concatenation of a list of characters. *)
Local Abbreviation concat chars := (foldr String.append "" chars).

Lemma concat_app (l1 l2 : list string) :
  concat (l1 ++ l2) = concat l1 +:+ concat l2.
Proof.
  induction l1 as [|c l1 IH]; simpl; [by rewrite app_empty_l|].
  by rewrite IH, string_app_assoc.
Qed.

Lemma rev_concat (l : list string) :
  String.rev (concat l) = concat (String.rev <$> reverse l).
Proof.
  induction l as [|c l IH]; [done|]. simpl.
  rewrite rev_app_distr, IH, reverse_cons, fmap_app, concat_app. simpl.
  by rewrite string_app_empty_r.
Qed.

Lemma without_prefix_Some (prefix s t : string) :
  without_prefix prefix s = Some t ↔ s = prefix +:+ t.
Proof.
  revert s. induction prefix as [|a prefix IH]; intros s; simpl.
  - rewrite app_empty_l. split; congruence.
  - rewrite app_String. destruct s as [|b s]; [done|].
    destruct (decide (a = b)) as [->|Hab].
    + rewrite IH. split; congruence.
    + split; [done|]. by intros [= <- _].
Qed.

Lemma skip_char_Some (chars : list string) (s t : string) :
  skip_char chars s = Some t → ∃ c, c ∈ chars ∧ s = c +:+ t.
Proof.
  unfold skip_char. intros Hhead.
  assert (t ∈ omap (λ c, without_prefix c s) chars) as Hin.
  { destruct (omap _ chars) as [|t' l]; simplify_eq/=. by left. }
  apply list_elem_of_omap in Hin as (c & Hc & Hpre).
  exists c. split; [done|]. by apply without_prefix_Some.
Qed.

Lemma skip_char_None (chars : list string) (s : string) :
  skip_char chars s = None ↔ ∀ c t, c ∈ chars → s ≠ c +:+ t.
Proof.
  unfold skip_char. split.
  - intros Hhead c t Hc Hs.
    assert (t ∈ omap (λ c, without_prefix c s) chars) as Hin.
    { apply list_elem_of_omap. exists c. split; [done|]. by apply without_prefix_Some. }
    destruct (omap _ chars); [by apply elem_of_nil in Hin|done].
  - intros Hno. destruct (omap _ chars) as [|t l] eqn:Hl; [done|].
    assert (t ∈ omap (λ c, without_prefix c s) chars) as Hin by (rewrite Hl; by left).
    apply list_elem_of_omap in Hin as (c & Hc & Hpre%without_prefix_Some).
    by destruct (Hno c t Hc).
Qed.

Lemma skip_chars_id (chars : list string) (n : nat) (s : string) :
  skip_char chars s = None → skip_chars chars n s = s.
Proof. intros Hs. destruct n; simpl; [done|]. by rewrite Hs. Qed.

(** What the scan skips is a sequence of the characters, and it stops
    where none of them leads. *)
Lemma skip_chars_spec (chars : list string) (n : nat) (s : string) :
  Forall (λ c, c ≠ "") chars →
  (String.length s ≤ n)%nat →
  ∃ skipped,
    Forall (λ c, c ∈ chars) skipped ∧
    s = concat skipped +:+ skip_chars chars n s ∧
    skip_char chars (skip_chars chars n s) = None.
Proof.
  intros Hchars. rewrite Forall_forall in Hchars.
  revert s. induction n as [|n IH]; intros s Hlen; simpl.
  - exists []. split; [done|]. split; [done|].
    destruct s; [|simpl in Hlen; lia].
    apply skip_char_None. intros c t Hc Hs. apply (Hchars c Hc).
    by destruct c.
  - destruct (skip_char chars s) as [t|] eqn:Hskip.
    + apply skip_char_Some in Hskip as (c & Hc & ->).
      destruct (IH t) as (skipped & Hskipped & Ht & Hstop).
      { rewrite string_length_app in Hlen.
        specialize (Hchars c Hc). destruct c; [done|]. simpl in Hlen. lia. }
      exists (c :: skipped). split; [by constructor|]. split; [|done].
      simpl. by rewrite string_app_assoc, <-Ht.
    + exists []. by rewrite Hskip.
Qed.

Lemma lskip_spec (chars : list string) (s : string) :
  Forall (λ c, c ≠ "") chars →
  ∃ skipped,
    Forall (λ c, c ∈ chars) skipped ∧
    s = concat skipped +:+ lskip chars s ∧
    skip_char chars (lskip chars s) = None.
Proof. intros Hchars. by apply skip_chars_spec. Qed.

Lemma whitespace_nonempty : Forall (λ c, c ≠ "") whitespace.
Proof. apply (bool_decide_unpack _). vm_compute. exact I. Qed.

Lemma whitespace_rev_nonempty : Forall (λ c, c ≠ "") (String.rev <$> whitespace).
Proof. apply (bool_decide_unpack _). vm_compute. exact I. Qed.

Lemma elem_of_whitespace_rev (c : string) :
  c ∈ String.rev <$> whitespace ↔ String.rev c ∈ whitespace.
Proof.
  rewrite list_elem_of_fmap. split.
  - intros (w & -> & Hw). by rewrite rev_involutive.
  - intros Hc. exists (String.rev c). by rewrite rev_involutive.
Qed.

(** No white-space character is the beginning of another one, so the
    scan takes a leading white-space character off as a whole. *)
Lemma skip_char_whitespace (c t : string) :
  c ∈ whitespace → skip_char whitespace (c +:+ t) = Some t.
Proof.
  intros Hc.
  let w := eval vm_compute in whitespace in change whitespace with w in Hc.
  repeat (apply elem_of_cons in Hc as [->|Hc]; [reflexivity|]).
  by apply elem_of_nil in Hc.
Qed.

Lemma skip_chars_whitespace (n : nat) (chars : list string) :
  Forall (λ c, c ∈ whitespace) chars →
  (String.length (concat chars) ≤ n)%nat →
  skip_chars whitespace n (concat chars) = "".
Proof.
  intros Hchars. revert n. induction Hchars as [|c chars Hc _ IH]; intros n Hlen.
  - by destruct n.
  - simpl in *. rewrite string_length_app in Hlen.
    pose proof whitespace_nonempty as Hne. rewrite Forall_forall in Hne.
    specialize (Hne c Hc).
    destruct n as [|n]; [destruct c; [done|simpl in Hlen; lia]|].
    simpl. rewrite skip_char_whitespace by done. apply IH.
    destruct c; [done|]. simpl in Hlen. lia.
Qed.

Lemma lstrip_spec (s : string) :
  ∃ skipped,
    Forall (λ c, c ∈ whitespace) skipped ∧
    s = concat skipped +:+ lstrip s ∧
    (∀ c t, c ∈ whitespace → lstrip s ≠ c +:+ t).
Proof.
  destruct (lskip_spec whitespace s whitespace_nonempty) as (skipped & ? & ? & Hstop).
  exists skipped. split; [done|]. split; [done|]. by apply skip_char_None.
Qed.

Lemma rstrip_spec (s : string) :
  ∃ skipped,
    Forall (λ c, c ∈ whitespace) skipped ∧
    s = rstrip s +:+ concat skipped ∧
    (∀ c t, c ∈ whitespace → rstrip s ≠ t +:+ c).
Proof.
  destruct (lskip_spec _ (String.rev s) whitespace_rev_nonempty)
    as (skipped & Hskipped & Hs & Hstop).
  exists (String.rev <$> reverse skipped). split; [|split].
  - apply Forall_fmap, Forall_reverse. eapply Forall_impl; [exact Hskipped|].
    intros c Hc. by apply elem_of_whitespace_rev.
  - apply (f_equal String.rev) in Hs.
    by rewrite rev_involutive, rev_app_distr, rev_concat in Hs.
  - intros c t Hc Hr. unfold rstrip in Hr. apply (f_equal String.rev) in Hr.
    rewrite rev_involutive, rev_app_distr in Hr.
    rewrite skip_char_None in Hstop. apply (Hstop (String.rev c) (String.rev t)); [|done].
    apply elem_of_whitespace_rev. by rewrite rev_involutive.
Qed.

Lemma strip_empty (s : string) : strip s = "" ↔ whitespace_only s.
Proof.
  unfold strip. split.
  - intros Hempty.
    destruct (lstrip_spec s) as (before & Hbefore & Hs & _).
    destruct (rstrip_spec (lstrip s)) as (after & Hafter & Hl & _).
    exists (before ++ after). split; [by apply Forall_app|].
    rewrite Hempty, app_empty_l in Hl. by rewrite concat_app, <-Hl.
  - intros (chars & Hchars & ->).
    assert (lstrip (concat chars) = "") as ->; [|done].
    by apply skip_chars_whitespace.
Qed.

Lemma strip_clean_name (s : string) : strip s ≠ "" → clean_name (strip s).
Proof.
  intros Hne. split; [done|]. unfold strip. intros c t Hc.
  destruct (lstrip_spec s) as (_ & _ & _ & Hhead).
  destruct (rstrip_spec (lstrip s)) as (after & _ & Hl & Hlast).
  split; [|by apply Hlast].
  intros Hr. apply (Hhead c (t +:+ concat after) Hc).
  by rewrite Hl at 1; rewrite Hr, string_app_assoc.
Qed.

Lemma strip_of_clean_name (s : string) : clean_name s → strip s = s.
Proof.
  intros [Hne Hclean]. unfold strip.
  assert (lstrip s = s) as ->.
  { apply skip_chars_id, skip_char_None. intros c t Hc. by destruct (Hclean c t Hc). }
  unfold rstrip, lskip. rewrite skip_chars_id; [apply rev_involutive|].
  apply skip_char_None. intros c t Hc%elem_of_whitespace_rev Hs.
  apply (f_equal String.rev) in Hs.
  rewrite rev_involutive, rev_app_distr in Hs.
  by destruct (Hclean (String.rev c) (String.rev t) Hc) as [_ []].
Qed.

(** A test for [clean_name] that can be evaluated. *)
Lemma clean_name_test (s : string) :
  s ≠ "" →
  skip_char whitespace s = None →
  skip_char (String.rev <$> whitespace) (String.rev s) = None →
  clean_name s.
Proof.
  intros Hne Hhead Hlast. split; [done|]. intros c t Hc. split.
  - rewrite skip_char_None in Hhead. by apply Hhead.
  - intros ->. rewrite skip_char_None in Hlast.
    apply (Hlast (String.rev c) (String.rev t)); [|apply rev_app_distr].
    apply elem_of_whitespace_rev. by rewrite rev_involutive.
Qed.

(** X6.  Every name the split reader returns is the stripped form of a
    line of the file, is not empty and neither starts nor ends with a
    white-space character ([str.isspace], the non-ASCII ones too); a
    line is stripped to nothing exactly when it is made of white-space
    characters only; and the names are those of the other lines, one
    per line, in the order of the file. *)
Theorem read_split_list_names (text : list string) :
  (∀ name, name ∈ read_split_list (Some text) →
     clean_name name ∧ ∃ line, line ∈ text ∧ name = strip line) ∧
  (∀ line, strip line = "" ↔ whitespace_only line) ∧
  read_split_list (Some text)
    = strip <$> filter (λ line, strip line ≠ "") text.
Proof.
  split; [|split].
  - simpl. intros name [Hne (line & -> & Hin)%list_elem_of_fmap]%list_elem_of_filter.
    split; [by apply strip_clean_name|by exists line].
  - apply strip_empty.
  - simpl. induction text as [|line text IH]; [done|].
    rewrite fmap_cons, !filter_cons, IH.
    by destruct (decide (strip line ≠ "")).
Qed.

(** X7.  A split file that holds one clean name per line (not empty, no
    white-space character at either end) is read back as exactly that
    list of names. *)
Theorem read_split_list_clean_file (text : list string) :
  Forall clean_name text → read_split_list (Some text) = text.
Proof.
  simpl. induction 1 as [|line text Hline _ IH]; [done|].
  rewrite fmap_cons, filter_cons, IH, (strip_of_clean_name line Hline).
  rewrite decide_True; [done|]. by destruct Hline.
Qed.

Lemma read_split_list_clean_file_witness :
  Forall clean_name ["a"; "b c"; utf8 [98; 194; 160; 99]%nat] ∧
  read_split_list (Some ["a"; "b c"; utf8 [98; 194; 160; 99]%nat])
    = ["a"; "b c"; utf8 [98; 194; 160; 99]%nat].
Proof.
  assert (Forall clean_name ["a"; "b c"; utf8 [98; 194; 160; 99]%nat]) as Hclean.
  { rewrite !Forall_cons. split; [|split; [|split; [|by constructor]]];
      (apply clean_name_test; [by vm_compute|reflexivity..]). }
  split; [exact Hclean|]. exact (read_split_list_clean_file _ Hclean).
Defined.

(** ** The collector is its comprehension *)

Lemma zip_with_seqZ_app {A B} (f : Z → A → B) (a : Z) (l1 l2 : list A) :
  zip_with f (seqZ a (Z.of_nat (length (l1 ++ l2)))) (l1 ++ l2) =
  zip_with f (seqZ a (Z.of_nat (length l1))) l1 ++
  zip_with f (seqZ (a + Z.of_nat (length l1)) (Z.of_nat (length l2))) l2.
Proof.
  rewrite length_app, Nat2Z.inj_add, seqZ_app by lia.
  apply zip_with_app. by rewrite length_seqZ, Nat2Z.id.
Qed.

Section Comprehension.
Context `{PyNum}.

Lemma first_error_app (vs1 vs2 : list visit) :
  first_error (vs1 ++ vs2) =
  match first_error vs1 with
  | Some e => Some e
  | None => first_error vs2
  end.
Proof.
  induction vs1 as [|v vs1 IH]; simpl; [done|]. by destruct (visit_error v).
Qed.

Lemma images_of_snoc (category_name : string) (vs : list visit) (v : visit) :
  images_of category_name (vs ++ [v]) =
  images_of category_name vs ++ [image_of category_name (1 + Z.of_nat (length vs)) v].
Proof. unfold images_of. by rewrite zip_with_seqZ_app. Qed.

Lemma labelled_boxes_snoc (vs : list visit) (v : visit) :
  labelled_boxes (vs ++ [v]) =
  labelled_boxes vs ++ (pair (1 + Z.of_nat (length vs)) <$> boxes_of v).
Proof.
  unfold labelled_boxes. rewrite zip_with_seqZ_app, join_app. f_equal.
  change (seqZ (1 + Z.of_nat (length vs)) (Z.of_nat (length [v])))
    with [1 + Z.of_nat (length vs)].
  simpl. by rewrite app_nil_r.
Qed.

Lemma annotations_of_snoc (vs : list visit) (v : visit) :
  annotations_of (vs ++ [v]) =
  annotations_of vs ++
  zip_with annotation_of
    (seqZ (1 + Z.of_nat (length (labelled_boxes vs)))
          (Z.of_nat (length (boxes_of v))))
    (pair (1 + Z.of_nat (length vs)) <$> boxes_of v).
Proof.
  unfold annotations_of. by rewrite labelled_boxes_snoc, zip_with_seqZ_app, length_fmap.
Qed.

Lemma foldl_append_box_exact (boxes : list box) (st : locals) :
  foldl append_box st boxes =
  Locals (images st)
         (anns st ++
          zip_with annotation_of
            (seqZ (ann_id_counter st) (Z.of_nat (length boxes)))
            (pair (image_id_counter st) <$> boxes))
         (image_id_counter st)
         (ann_id_counter st + Z.of_nat (length boxes)).
Proof.
  revert st. induction boxes as [|b boxes IH]; intros st.
  - destruct st. simpl. rewrite app_nil_r. f_equal. lia.
  - simpl foldl. rewrite IH. simpl.
    rewrite (seqZ_cons (ann_id_counter st)) by lia.
    rewrite <-app_assoc. simpl. f_equal; [|lia].
    do 3 f_equal. f_equal; lia.
Qed.

(** One pass of the inner loop, started in the locals of the visits
    made so far. *)
Lemma visit_stem_locals_after (category_name subcategory_name : string)
    (d : subcat_dir) (dir : gmap string image_file) (vs : list visit)
    (stem : string) :
  visit_stem category_name subcategory_name dir (annotations_dir d)
             (locals_after category_name vs) stem =
  match stem_visit subcategory_name d dir stem with
  | None => Ok (locals_after category_name vs)
  | Some v =>
      match visit_error v with
      | Some e => Raise e
      | None => Ok (locals_after category_name (vs ++ [v]))
      end
  end.
Proof.
  unfold visit_stem, stem_visit.
  destruct (resolve dir stem extensions) as [name|]; simpl; [|done].
  unfold visit_error. simpl.
  destruct (image_size (dir !! name)) as [[w h]|e] eqn:Hsize; simpl; [|done].
  destruct (parse_csv_boxes (annotations_dir d !! (stem +:+ ".csv")))
    as [boxes|e] eqn:Hcsv; simpl; [|done].
  rewrite foldl_append_box_exact. simpl. f_equal.
  unfold locals_after.
  rewrite images_of_snoc, annotations_of_snoc, labelled_boxes_snoc.
  unfold image_of, boxes_of. simpl. rewrite Hsize, Hcsv. simpl.
  rewrite !length_app, length_fmap. simpl. f_equal; lia.
Qed.

Lemma for_each_stems_locals_after (category_name subcategory_name : string)
    (d : subcat_dir) (dir : gmap string image_file) (stems : list string)
    (vs : list visit) :
  for_each (visit_stem category_name subcategory_name dir (annotations_dir d))
           stems (locals_after category_name vs) =
  match first_error (omap (stem_visit subcategory_name d dir) stems) with
  | Some e => Raise e
  | None =>
      Ok (locals_after category_name
            (vs ++ omap (stem_visit subcategory_name d dir) stems))
  end.
Proof.
  revert vs. induction stems as [|stem stems IH]; intros vs; simpl.
  - by rewrite app_nil_r.
  - rewrite visit_stem_locals_after.
    destruct (stem_visit subcategory_name d dir stem) as [v|]; simpl; [|apply IH].
    destruct (visit_error v); simpl; [done|].
    by rewrite IH, <-app_assoc.
Qed.

Lemma visit_subcat_locals_after (category_name : string) (image_stems : gset string)
    (child : string * dir_entry) (vs : list visit) :
  visit_subcat category_name image_stems (locals_after category_name vs) child =
  match first_error (child_visits image_stems child) with
  | Some e => Raise e
  | None => Ok (locals_after category_name (vs ++ child_visits image_stems child))
  end.
Proof.
  destruct child as [sc [|d]]; simpl; [by rewrite app_nil_r|].
  destruct (decide (sc = "sets")); simpl; [by rewrite app_nil_r|].
  destruct (images_dir d) as [dir|]; simpl; [|by rewrite app_nil_r].
  apply for_each_stems_locals_after.
Qed.

Lemma for_each_children_locals_after (category_name : string)
    (image_stems : gset string) (children : list (string * dir_entry))
    (vs : list visit) :
  for_each (visit_subcat category_name image_stems) children
           (locals_after category_name vs) =
  match first_error (children ≫= child_visits image_stems) with
  | Some e => Raise e
  | None =>
      Ok (locals_after category_name
            (vs ++ (children ≫= child_visits image_stems)))
  end.
Proof.
  revert vs. induction children as [|child children IH]; intros vs; simpl.
  - by rewrite app_nil_r.
  - rewrite visit_subcat_locals_after, first_error_app.
    destruct (first_error (child_visits image_stems child)); simpl; [done|].
    by rewrite IH, <-app_assoc.
Qed.

Lemma collect_is_collect_spec (root : category_dir) (split category_name : string) :
  collect_annotations_for_category root split category_name
  = collect_spec root split category_name.
Proof.
  unfold collect_annotations_for_category, collect_spec.
  destruct (load_labelmap (labelmap_json root)) as [m|]; simpl; [|done].
  change (Locals [] [] 1 1) with (locals_after category_name []).
  rewrite for_each_children_locals_after. fold (split_names root split).
  fold (visits root split). by destruct (first_error (visits root split)).
Qed.
End Comprehension.

(** ** What follows from the comprehension *)

Lemma elem_of_child_visits (image_stems : gset string) (child : string * dir_entry)
    (v : visit) :
  v ∈ child_visits image_stems child ↔
  ∃ d dir name,
    child = (v_subcategory v, Directory d) ∧ v_subcategory v ≠ "sets" ∧
    images_dir d = Some dir ∧
    v_stem v ∈ image_stems ∧ v_stem v ∈ subcat_images dir ∧
    resolve dir (v_stem v) extensions = Some name ∧
    v = Visit (v_subcategory v) (v_stem v) name (dir !! name)
              (annotations_dir d !! (v_stem v +:+ ".csv")).
Proof.
  destruct child as [sc [|d]]; unfold child_visits; cbv beta iota.
  { split; [by intros ?%elem_of_nil|]. by intros (? & ? & ? & [=] & _). }
  destruct (decide (sc = "sets")) as [->|Hsets].
  { split; [by intros ?%elem_of_nil|]. intros (? & ? & ? & [= <- _] & ? & _). done. }
  destruct (images_dir d) as [dir|] eqn:Hdir.
  - rewrite list_elem_of_omap. unfold stem_visit. split.
    + intros (stem & [Hsplit Hglob]%elem_of_selected_stems & Hv).
      destruct (resolve dir stem extensions) as [name|] eqn:Hres; simplify_eq/=.
      by exists d, dir, name.
    + intros (d' & dir' & name & [= <- <-] & _ & Hdir' & Hsplit & Hglob & Hres & Hv).
      assert (dir' = dir) as -> by congruence.
      exists (v_stem v). split; [by apply elem_of_selected_stems|].
      by rewrite Hres, Hv.
  - split; [by intros ?%elem_of_nil|].
    intros (? & ? & ? & [= <- <-] & _ & ? & _). congruence.
Qed.

Lemma elem_of_visits (root : category_dir) (split : string) (v : visit) :
  v ∈ visits root split ↔
  ∃ d dir name,
    (v_subcategory v, Directory d) ∈ iterdir root ∧ v_subcategory v ≠ "sets" ∧
    images_dir d = Some dir ∧
    v_stem v ∈ split_names root split ∧ v_stem v ∈ subcat_images dir ∧
    resolve dir (v_stem v) extensions = Some name ∧
    v = Visit (v_subcategory v) (v_stem v) name (dir !! name)
              (annotations_dir d !! (v_stem v +:+ ".csv")).
Proof.
  unfold visits. rewrite list_elem_of_bind. split.
  - intros (child & (d & dir & name & -> & ? & ? & ?%elem_of_list_to_set & ?)
              %elem_of_child_visits & Hin).
    by exists d, dir, name.
  - intros (d & dir & name & Hin & ? & ? & ? & ?).
    exists (v_subcategory v, Directory d). split; [|done].
    apply elem_of_child_visits. exists d, dir, name.
    rewrite elem_of_list_to_set. done.
Qed.

Lemma resolve_first (dir : gmap string image_file) (stem : string)
    (exts : list string) (name : string) :
  resolve dir stem exts = Some name →
  ∃ before ext after,
    exts = before ++ ext :: after ∧ name = stem +:+ ext ∧
    is_Some (dir !! name) ∧
    Forall (λ e, dir !! (stem +:+ e) = None) before.
Proof.
  induction exts as [|ext exts IH]; simpl; [done|].
  destruct (decide (is_Some (dir !! (stem +:+ ext)))) as [Hex|Hnot].
  - intros [= <-]. by exists [], ext, exts.
  - intros (before & ext' & after & -> & ? & ? & ?)%IH.
    exists (ext :: before), ext', after. repeat split; try done.
    constructor; [|done]. by apply eq_None_not_Some.
Qed.

Lemma resolve_None (dir : gmap string image_file) (stem : string)
    (exts : list string) :
  resolve dir stem exts = None →
  Forall (λ e, dir !! (stem +:+ e) = None) exts.
Proof.
  induction exts as [|ext exts IH]; simpl; [by constructor|].
  destruct (decide (is_Some (dir !! (stem +:+ ext)))) as [Hex|Hnot]; [done|].
  intros ?%IH. constructor; [|done]. by apply eq_None_not_Some.
Qed.

Section Corollaries.
Context `{PyNum}.

Lemma first_error_None (vs : list visit) :
  first_error vs = None ↔ Forall (λ v, visit_error v = None) vs.
Proof.
  induction vs as [|v vs IH]; simpl; [by split; [constructor|]|].
  rewrite Forall_cons, <-IH. destruct (visit_error v); naive_solver.
Qed.

Lemma lookup_images_of (category_name : string) (vs : list visit) (i : nat) :
  images_of category_name vs !! i
  = image_of category_name (1 + Z.of_nat i) <$> vs !! i.
Proof.
  unfold images_of. rewrite lookup_zip_with.
  destruct (vs !! i) as [v|] eqn:Hv; simpl.
  - rewrite lookup_seqZ_lt; [done|]. apply lookup_lt_Some in Hv. lia.
  - by destruct (seqZ _ _ !! i).
Qed.

Lemma collect_Ok (root : category_dir) (split category_name : string)
    (imgs : list image_rec) (anns : list annotation) (cats : list category) :
  collect_annotations_for_category root split category_name = Ok (imgs, anns, cats) →
  Forall (λ v, visit_error v = None) (visits root split) ∧
  imgs = images_of category_name (visits root split) ∧
  anns = annotations_of (visits root split).
Proof.
  rewrite collect_is_collect_spec. unfold collect_spec.
  destruct (load_labelmap (labelmap_json root)); simpl; [|done].
  destruct (first_error (visits root split)) eqn:Herr; [done|].
  intros [= <- <- _]. by apply first_error_None in Herr.
Qed.

Lemma visit_error_None (v : visit) :
  visit_error v = None →
  ∃ w h boxes,
    v_image v = Some (Image w h) ∧ parse_csv_boxes (v_csv v) = Ok boxes.
Proof.
  unfold visit_error, image_size.
  destruct (v_image v) as [[w h|]|]; [|done..].
  destruct (parse_csv_boxes (v_csv v)) as [boxes|]; [|done].
  intros _. by exists w, h, boxes.
Qed.
End Corollaries.

(** X8.  The collector is the comprehension [collect_spec]: it fails
    with the label map's exception, or with the exception of the first
    visit (in loop order) whose image does not open or whose CSV file
    does not parse; otherwise it returns the visits numbered 1, 2, ...
    as image records, their boxes numbered 1, 2, ... as annotation
    records, and the category list of the label map. *)
Theorem collector_is_comprehension `{PyNum}
    (root : category_dir) (split category_name : string) :
  collect_annotations_for_category root split category_name =
  id_to_name ← load_labelmap (labelmap_json root);
  match first_error (visits root split) with
  | Some e => Raise e
  | None =>
      Ok (images_of category_name (visits root split),
          annotations_of (visits root split),
          categories_of id_to_name category_name)
  end.
Proof. apply collect_is_collect_spec. Qed.

(** X9.  One unreadable file aborts the split: when a stem of the split
    resolves, in a subcategory, to an image PIL cannot open, or its CSV
    file makes the box parser raise, the collector raises and returns
    no document. *)
Theorem collect_aborts_on_bad_file `{PyNum}
    (root : category_dir) (split category_name : string)
    (sc : string) (d : subcat_dir) (dir : gmap string image_file)
    (stem name : string) :
  (sc, Directory d) ∈ iterdir root → sc ≠ "sets" → images_dir d = Some dir →
  stem ∈ split_names root split → stem ∈ subcat_images dir →
  resolve dir stem extensions = Some name →
  ¬ is_ok (image_size (dir !! name)) ∨
  ¬ is_ok (parse_csv_boxes (annotations_dir d !! (stem +:+ ".csv"))) →
  ¬ is_ok (collect_annotations_for_category root split category_name).
Proof.
  intros Hchild Hsets Hdir Hsplit Hglob Hres Hbad Hok.
  destruct (collect_annotations_for_category root split category_name)
    as [[[imgs anns] cats]|] eqn:Hcollect; [|done].
  apply collect_Ok in Hcollect as (Hgood & _ & _).
  rewrite Forall_forall in Hgood.
  set (v := Visit sc stem name (dir !! name) (annotations_dir d !! (stem +:+ ".csv"))).
  assert (v ∈ visits root split) as Hv.
  { apply elem_of_visits. by exists d, dir, name. }
  apply Hgood, visit_error_None in Hv as (w & h & boxes & Himg & Hcsv). simpl in *.
  destruct Hbad as [Hbad|Hbad]; apply Hbad.
  - by rewrite Himg.
  - by rewrite Hcsv.
Qed.

Lemma collect_aborts_on_bad_file_witness :
  ("healthy", Directory healthy_short_csv) ∈ iterdir example_root_short_csv ∧
  "a" ∈ split_names example_root_short_csv "train" ∧
  ¬ is_ok (@collect_annotations_for_category ZNum
             example_root_short_csv "train" "strawberries").
Proof.
  assert (("healthy", Directory healthy_short_csv) ∈ iterdir example_root_short_csv)
    as Hchild by apply list_elem_of_here.
  assert ("a" ∈ split_names example_root_short_csv "train") as Hsplit
    by (apply (bool_decide_unpack _); vm_compute; exact I).
  split; [exact Hchild|]. split; [exact Hsplit|].
  apply (@collect_aborts_on_bad_file ZNum example_root_short_csv "train"
           "strawberries" "healthy" healthy_short_csv
           (list_to_map [("a.jpg", Image 10 20); ("a.png", Image 11 21)])
           "a" "a.jpg" Hchild).
  - discriminate.
  - reflexivity.
  - exact Hsplit.
  - apply (bool_decide_unpack _). vm_compute. exact I.
  - reflexivity.
  - right. vm_compute. intros [].
Defined.

(** X10.  Nothing listed is left out: when the collector returns, every
    name of the split that has a jpg, JPG, png or PNG file in the
    images folder of a subcategory has an image record there. *)
Theorem listed_images_are_emitted `{PyNum}
    (root : category_dir) (split category_name : string)
    (imgs : list image_rec) (anns : list annotation) (cats : list category)
    (sc : string) (d : subcat_dir) (dir : gmap string image_file)
    (stem gext : string) :
  collect_annotations_for_category root split category_name = Ok (imgs, anns, cats) →
  (sc, Directory d) ∈ iterdir root → sc ≠ "sets" → images_dir d = Some dir →
  stem ∈ split_names root split →
  gext ∈ glob_extensions → is_Some (dir !! (stem +:+ gext)) →
  ∃ im ext,
    im ∈ imgs ∧ ext ∈ extensions ∧ is_Some (dir !! (stem +:+ ext)) ∧
    file_name im = image_file_name category_name sc (stem +:+ ext).
Proof.
  intros (_ & -> & _)%collect_Ok Hchild Hsets Hdir Hsplit Hgext Hfile.
  assert (stem ∈ subcat_images dir) as Hglob.
  { apply elem_of_subcat_images. exists (stem +:+ gext), gext.
    split; [done|]. split; [done|]. split; [apply endswith_app|].
    apply py_stem_app_ext; [|by apply glob_extension_extension].
    by eapply elem_of_read_split_list_nonempty. }
  destruct (resolve dir stem extensions) as [name|] eqn:Hres.
  - set (v := Visit sc stem name (dir !! name) (annotations_dir d !! (stem +:+ ".csv"))).
    assert (v ∈ visits root split) as [i Hi]%list_elem_of_lookup.
    { apply elem_of_visits. by exists d, dir, name. }
    apply resolve_Some in Hres as (ext & Hext & -> & Hex).
    exists (image_of category_name (1 + Z.of_nat i) v), ext.
    split; [|done]. apply list_elem_of_lookup. exists i.
    by rewrite lookup_images_of, Hi.
  - apply resolve_None in Hres. rewrite Forall_forall in Hres.
    rewrite (Hres gext) in Hfile; [by destruct Hfile|].
    by apply glob_extension_extension.
Qed.

Lemma listed_images_are_emitted_witness :
  @collect_annotations_for_category ZNum example_root "train" "strawberries"
    = Ok (example_images, example_anns, example_categories) ∧
  ("healthy", Directory healthy) ∈ iterdir example_root ∧
  "b" ∈ split_names example_root "train" ∧
  ∃ im ext,
    im ∈ example_images ∧ ext ∈ extensions ∧
    is_Some (default ∅ (images_dir healthy) !! ("b" +:+ ext)) ∧
    file_name im = image_file_name "strawberries" "healthy" ("b" +:+ ext).
Proof.
  assert (("healthy", Directory healthy) ∈ iterdir example_root) as Hchild
    by (do 2 apply list_elem_of_further; apply list_elem_of_here).
  assert ("b" ∈ split_names example_root "train") as Hsplit
    by (apply (bool_decide_unpack _); vm_compute; exact I).
  split; [reflexivity|]. split; [exact Hchild|]. split; [exact Hsplit|].
  apply (@listed_images_are_emitted ZNum example_root "train" "strawberries"
           example_images example_anns example_categories
           "healthy" healthy _ "b" ".PNG" eq_refl Hchild).
  - discriminate.
  - reflexivity.
  - exact Hsplit.
  - apply (bool_decide_unpack _). vm_compute. exact I.
  - apply (bool_decide_unpack _). vm_compute. exact I.
Defined.

(** X11.  Each image record is written for the first of stem.jpg,
    stem.JPG, stem.png, stem.PNG, stem.bmp, stem.BMP that exists in the
    images folder, and carries the pixel width and height of that
    file. *)
Theorem image_records_describe_first_file `{PyNum}
    (root : category_dir) (split category_name : string)
    (imgs : list image_rec) (anns : list annotation) (cats : list category) :
  collect_annotations_for_category root split category_name = Ok (imgs, anns, cats) →
  ∀ im, im ∈ imgs →
    ∃ sc stem dir before ext after,
      emitted_for root category_name sc stem ext dir im ∧
      extensions = before ++ ext :: after ∧
      Forall (λ e, dir !! (stem +:+ e) = None) before ∧
      dir !! (stem +:+ ext) = Some (Image (im_width im) (im_height im)).
Proof.
  intros (Hgood & -> & _)%collect_Ok im [i Hi]%list_elem_of_lookup.
  rewrite lookup_images_of in Hi.
  destruct (visits root split !! i) as [v|] eqn:Hv; simplify_eq/=.
  apply list_elem_of_lookup_2 in Hv. rewrite Forall_forall in Hgood.
  destruct (visit_error_None v (Hgood v Hv)) as (w & h & boxes & Himg & _).
  apply elem_of_visits in Hv as (d & dir & name & Hchild & _ & Hdir & _ & _ & Hres & Hv).
  apply resolve_first in Hres as (before & ext & after & Hexts & -> & Hex & Hbefore).
  exists (v_subcategory v), (v_stem v), dir, before, ext, after.
  assert (v_image v = dir !! (v_stem v +:+ ext)) as Hfile by (by rewrite Hv).
  assert (v_name v = v_stem v +:+ ext) as Hname by (by rewrite Hv).
  unfold image_of. rewrite Himg. simpl. rewrite Hname, <-Hfile.
  split; [|done]. split; [by exists d|].
  split; [|split; [by rewrite <-Hfile, Himg|done]].
  rewrite Hexts. set_solver.
Qed.

Lemma image_records_describe_first_file_witness :
  @collect_annotations_for_category ZNum example_root "train" "strawberries"
    = Ok (example_images, example_anns, example_categories) ∧
  ∀ im, im ∈ example_images →
    ∃ sc stem dir before ext after,
      emitted_for example_root "strawberries" sc stem ext dir im ∧
      extensions = before ++ ext :: after ∧
      Forall (λ e, dir !! (stem +:+ e) = None) before ∧
      dir !! (stem +:+ ext) = Some (Image (im_width im) (im_height im)).
Proof.
  split; [reflexivity|].
  apply (@image_records_describe_first_file ZNum example_root "train" "strawberries"
           example_images example_anns example_categories).
  reflexivity.
Defined.

(** ** File names are not repeated *)

Lemma NoDup_fst_inj {A B} (l : list (A * B)) (x : A) (y1 y2 : B) :
  NoDup l.*1 → (x, y1) ∈ l → (x, y2) ∈ l → y1 = y2.
Proof.
  induction l as [|[x' y'] l IH]; simpl; [by intros _ ?%elem_of_nil|].
  intros [Hnot Hnodup]%NoDup_cons [Heq1|H1]%elem_of_cons [Heq2|H2]%elem_of_cons.
  - congruence.
  - injection Heq1 as <- <-. destruct Hnot. apply list_elem_of_fmap. by exists (x, y2).
  - injection Heq2 as <- <-. destruct Hnot. apply list_elem_of_fmap. by exists (x, y1).
  - by apply IH.
Qed.

Lemma NoDup_omap {A B} (f : A → option B) (l : list A) :
  (∀ x y z, f x = Some z → f y = Some z → x = y) →
  NoDup l → NoDup (omap f l).
Proof.
  intros Hinj. induction 1 as [|x l Hnot Hnodup IH]; simpl; [constructor|].
  destruct (f x) as [z|] eqn:Hx; [|done].
  constructor; [|done]. intros (y & Hy & Hfy)%list_elem_of_omap.
  by rewrite (Hinj x y z Hx Hfy) in Hnot.
Qed.

Lemma NoDup_visits (root : category_dir) (split : string) :
  NoDup (iterdir root).*1 → NoDup (visits root split).
Proof.
  intros Hnames. unfold visits. apply NoDup_bind.
  - intros c1 c2 v Hc1 Hc2
      (d1 & ? & ? & -> & _)%elem_of_child_visits
      (d2 & ? & ? & -> & _)%elem_of_child_visits.
    by rewrite (NoDup_fst_inj _ _ _ _ Hnames Hc1 Hc2).
  - intros [sc [|d]] _; simpl; [constructor|].
    destruct (decide (sc = "sets")); [constructor|].
    destruct (images_dir d) as [dir|]; [|constructor].
    apply NoDup_omap; [|apply selected_stems_sorted].
    unfold stem_visit. intros s1 s2 v Hs1 Hs2.
    destruct (resolve dir s1 extensions), (resolve dir s2 extensions);
      simplify_eq/=. done.
  - by apply NoDup_fmap_1 in Hnames.
Qed.

Lemma file_names_of_images_of `{PyNum} (category_name : string) (vs : list visit) :
  file_name <$> images_of category_name vs =
  (λ v, image_file_name category_name (v_subcategory v) (v_name v)) <$> vs.
Proof.
  apply list_eq. intros i. rewrite !list_lookup_fmap, lookup_images_of.
  by destruct (vs !! i).
Qed.

(** X12.  No two image records of a document carry the same file_name,
    provided the children of the category root have distinct names
    without path separator (as in any directory). *)
Theorem file_names_are_distinct `{PyNum}
    (root : category_dir) (split category_name : string)
    (imgs : list image_rec) (anns : list annotation) (cats : list category) :
  slash_free root → NoDup (iterdir root).*1 →
  collect_annotations_for_category root split category_name = Ok (imgs, anns, cats) →
  NoDup (file_name <$> imgs).
Proof.
  intros Hfree Hnames (_ & -> & _)%collect_Ok.
  rewrite file_names_of_images_of.
  apply NoDup_fmap_2_strong; [|by apply NoDup_visits].
  unfold slash_free in Hfree. rewrite Forall_forall in Hfree.
  intros [sc1 st1 nm1 im1 cs1] [sc2 st2 nm2 im2 cs2]
    (d1 & dir1 & n1 & Hc1 & _ & Hdir1 & _ & _ & Hres1 & Hv1)%elem_of_visits
    (d2 & dir2 & n2 & Hc2 & _ & Hdir2 & _ & _ & Hres2 & Hv2)%elem_of_visits Heq.
  simpl in Hc1, Hc2, Hv1, Hv2, Heq |- *.
  injection Hv1 as -> -> ->. injection Hv2 as -> -> ->.
  apply image_file_name_inj in Heq as [-> Hname];
    [|exact (Hfree _ Hc1)|exact (Hfree _ Hc2)].
  pose proof (NoDup_fst_inj _ _ _ _ Hnames Hc1 Hc2) as [= ->].
  assert (dir1 = dir2) as -> by congruence.
  apply resolve_Some in Hres1 as (e1 & He1 & Hn1 & _).
  apply resolve_Some in Hres2 as (e2 & He2 & Hn2 & _).
  simpl in Hn1, Hn2. subst n1 n2.
  by apply app_ext_inj in Hname as [-> ->].
Qed.

Lemma file_names_are_distinct_witness :
  slash_free example_root ∧ NoDup (iterdir example_root).*1 ∧
  @collect_annotations_for_category ZNum example_root "train" "strawberries"
    = Ok (example_images, example_anns, example_categories) ∧
  NoDup (file_name <$> example_images).
Proof.
  assert (slash_free example_root) as Hfree by (repeat constructor).
  assert (NoDup (iterdir example_root).*1) as Hnames
    by (apply (bool_decide_unpack _); vm_compute; exact I).
  split; [exact Hfree|]. split; [exact Hnames|]. split; [reflexivity|].
  apply (@file_names_are_distinct ZNum example_root "train" "strawberries"
           example_images example_anns example_categories Hfree Hnames).
  reflexivity.
Defined.

(** ** Directory entries that are not subcategories *)

Lemma bind_filter_nil {A B} (P : A → Prop) `{∀ x, Decision (P x)}
    (f : A → list B) (l : list A) :
  (∀ x, ¬ P x → f x = []) → filter P l ≫= f = l ≫= f.
Proof.
  intros Hf. induction l as [|x l IH]; [done|].
  rewrite filter_cons. destruct (decide (P x)) as [HP|HP]; csimpl.
  - by rewrite IH.
  - by rewrite IH, (Hf x HP).
Qed.

Lemma child_visits_not_subcategory (image_stems : gset string)
    (child : string * dir_entry) :
  ¬ is_subcategory child → child_visits image_stems child = [].
Proof.
  destruct child as [sc [|d]]; simpl; [done|].
  destruct (decide (sc = "sets")); [done|].
  destruct (images_dir d) as [dir|]; [|done].
  intros []. split; [done|by eexists].
Qed.

(** X13.  Regular files, the [sets] directory and directories without
    an [images/] folder contribute nothing and raise nothing: the
    collector gives the same result with and without them. *)
Theorem collect_ignores_other_entries `{PyNum}
    (labelmap : option labelmap_file) (sets : gmap string (list string))
    (children : list (string * dir_entry)) (split category_name : string) :
  collect_annotations_for_category
    (CategoryDir labelmap sets children) split category_name =
  collect_annotations_for_category
    (CategoryDir labelmap sets (filter is_subcategory children)) split category_name.
Proof.
  rewrite !collect_is_collect_spec. unfold collect_spec, visits, split_names. simpl.
  rewrite bind_filter_nil; [done|].
  intros child. apply child_visits_not_subcategory.
Qed.

(** ** The annotations of an image *)

Lemma filter_all {A} (P : A → Prop) `{∀ x, Decision (P x)} (l : list A) :
  Forall P l → filter P l = l.
Proof.
  induction 1 as [|x l Hx _ IH]; [done|].
  by rewrite filter_cons, decide_True, IH.
Qed.

Lemma filter_none {A} (P : A → Prop) `{∀ x, Decision (P x)} (l : list A) :
  Forall (λ x, ¬ P x) l → filter P l = [].
Proof.
  induction 1 as [|x l Hx _ IH]; [done|].
  by rewrite filter_cons, decide_False, IH.
Qed.

Section ImageAnnotations.
Context `{PyNum}.

Lemma payload_block (a id : Z) (bs : list box) :
  payload <$> zip_with annotation_of (seqZ a (Z.of_nat (length bs))) (pair id <$> bs)
  = box_payload <$> bs.
Proof.
  revert a. induction bs as [|b bs IH]; intros a; [done|].
  rewrite length_cons, seqZ_cons by lia. simpl.
  replace (Z.pred (Z.of_nat (S (length bs)))) with (Z.of_nat (length bs)) by lia.
  by rewrite IH.
Qed.

Lemma image_id_block (ids : list Z) (id : Z) (bs : list box) :
  Forall (λ a, image_id a = id) (zip_with annotation_of ids (pair id <$> bs)).
Proof.
  revert ids. induction bs as [|b bs IH]; intros [|j ids]; simpl;
    try constructor; [done|apply IH].
Qed.

Lemma annotations_of_image_ids (vs : list visit) :
  Forall (λ a, 1 ≤ image_id a ≤ Z.of_nat (length vs)) (annotations_of vs).
Proof.
  induction vs as [|v vs IH] using rev_ind; [constructor|].
  rewrite annotations_of_snoc, length_app. simpl. apply Forall_app. split.
  - eapply Forall_impl; [exact IH|]. simpl. lia.
  - eapply Forall_impl; [apply image_id_block|]. simpl. lia.
Qed.

(** The annotations that refer to the image of a visit are the boxes of
    that visit, in order. *)
Lemma filter_annotations_of (vs : list visit) (i : nat) (v : visit) :
  vs !! i = Some v →
  payload <$> filter (λ a, image_id a = 1 + Z.of_nat i) (annotations_of vs)
  = box_payload <$> boxes_of v.
Proof.
  revert i v. induction vs as [|v' vs IH] using rev_ind; intros i v Hi; [done|].
  rewrite annotations_of_snoc, filter_app, fmap_app.
  destruct (decide (i < length vs)%nat) as [Hlt|Hge].
  - rewrite lookup_app_l in Hi by done. rewrite (IH i v Hi).
    rewrite filter_none, app_nil_r; [done|].
    eapply Forall_impl; [apply image_id_block|]. simpl. lia.
  - assert (i = length vs) as ->.
    { apply lookup_lt_Some in Hi. rewrite length_app in Hi. simpl in Hi. lia. }
    rewrite list_lookup_middle in Hi by done. injection Hi as <-.
    rewrite filter_none; [|].
    + rewrite filter_all by apply image_id_block. apply payload_block.
    + eapply Forall_impl; [apply annotations_of_image_ids|]. simpl. lia.
Qed.
End ImageAnnotations.

(** X14.  The annotations that refer to an image record are exactly the
    boxes the parser returns for the CSV file of that image
    ([csv/<stem>.csv] of the same subcategory), in row order, each with
    the box's category_id, bbox and area and with iscrowd 0. *)
Theorem image_annotations_are_its_csv_boxes `{PyNum}
    (root : category_dir) (split category_name : string)
    (imgs : list image_rec) (anns : list annotation) (cats : list category) :
  collect_annotations_for_category root split category_name = Ok (imgs, anns, cats) →
  ∀ im, im ∈ imgs →
    ∃ sc d dir stem ext boxes,
      (sc, Directory d) ∈ iterdir root ∧ images_dir d = Some dir ∧
      ext ∈ extensions ∧ is_Some (dir !! (stem +:+ ext)) ∧
      file_name im = image_file_name category_name sc (stem +:+ ext) ∧
      parse_csv_boxes (annotations_dir d !! (stem +:+ ".csv")) = Ok boxes ∧
      payload <$> filter (λ a, image_id a = im_id im) anns = box_payload <$> boxes.
Proof.
  intros (Hgood & -> & ->)%collect_Ok im [i Hi]%list_elem_of_lookup.
  rewrite lookup_images_of in Hi.
  destruct (visits root split !! i) as [v|] eqn:Hv; simplify_eq/=.
  pose proof (filter_annotations_of _ _ _ Hv) as Hfilter.
  apply list_elem_of_lookup_2 in Hv. rewrite Forall_forall in Hgood.
  destruct (visit_error_None v (Hgood v Hv)) as (w & h & boxes & _ & Hcsv).
  unfold boxes_of in Hfilter. rewrite Hcsv in Hfilter.
  apply elem_of_visits in Hv as (d & dir & name & Hchild & _ & Hdir & _ & _ & Hres & Hv).
  apply resolve_Some in Hres as (ext & Hext & -> & Hex).
  exists (v_subcategory v), d, dir, (v_stem v), ext, boxes.
  assert (v_csv v = annotations_dir d !! (v_stem v +:+ ".csv")) as <- by (by rewrite Hv).
  assert (v_name v = v_stem v +:+ ext) as Hname by (by rewrite Hv).
  unfold image_of. simpl. by rewrite Hname.
Qed.

Lemma image_annotations_are_its_csv_boxes_witness :
  @collect_annotations_for_category ZNum example_root "train" "strawberries"
    = Ok (example_images, example_anns, example_categories) ∧
  ∀ im, im ∈ example_images →
    ∃ sc d dir stem ext boxes,
      (sc, Directory d) ∈ iterdir example_root ∧ images_dir d = Some dir ∧
      ext ∈ extensions ∧ is_Some (dir !! (stem +:+ ext)) ∧
      file_name im = image_file_name "strawberries" sc (stem +:+ ext) ∧
      @parse_csv_boxes ZNum (annotations_dir d !! (stem +:+ ".csv")) = Ok boxes ∧
      payload <$> filter (λ a, image_id a = im_id im) example_anns
        = box_payload <$> boxes.
Proof.
  split; [reflexivity|].
  apply (@image_annotations_are_its_csv_boxes ZNum example_root "train"
           "strawberries" example_images example_anns example_categories).
  reflexivity.
Defined.

(** ** main *)

Section DriverProofs.
Context `{PyNum}.

Lemma out_name_inj (category_name split1 split2 : string) :
  out_name category_name split1 = out_name category_name split2 → split1 = split2.
Proof.
  unfold out_name. intros Heq.
  apply (inj (String.app category_name)), (inj (String.app "_instances_")) in Heq.
  by apply app_same_length_inj in Heq as [-> _].
Qed.

Lemma write_splits_app (root : category_dir) (category_name : string)
    (splits1 splits2 : list string) (out : gmap string coco) (stdout : list printed) :
  write_splits root category_name (splits1 ++ splits2) out stdout =
  match write_splits root category_name splits1 out stdout with
  | (out', stdout', Returned) => write_splits root category_name splits2 out' stdout'
  | stopped => stopped
  end.
Proof.
  revert out stdout. induction splits1 as [|split splits1 IH]; intros out stdout;
    simpl; [done|].
  destruct (collect_annotations_for_category root split category_name)
    as [[[imgs anns] cats]|e]; [apply IH|done].
Qed.

(** What a run of the loop leaves: the files of the splits it got
    through, nothing else touched, one line per split. *)
Lemma write_splits_spec (root : category_dir) (category_name : string)
    (splits : list string) (out out' : gmap string coco)
    (stdout stdout' : list printed) (end_ : outcome) :
  write_splits root category_name splits out stdout = (out', stdout', end_) →
  ∃ done,
    done `prefix_of` splits ∧
    (end_ = Returned → done = splits) ∧
    end_ ≠ SysExit 1 ∧
    (∀ split, split ∈ done →
       ∃ imgs anns cats,
         collect_annotations_for_category root split category_name
           = Ok (imgs, anns, cats) ∧
         out' !! out_name category_name split
           = Some (split_document category_name split imgs anns cats)) ∧
    (∀ name, name ∉ out_name category_name <$> done → out' !! name = out !! name) ∧
    ∃ lines,
      stdout' = stdout ++ lines ∧
      Forall2 (λ split line,
        ∃ imgs anns cats,
          collect_annotations_for_category root split category_name
            = Ok (imgs, anns, cats) ∧
          line = PrintGenerated (out_name category_name split)
                                (length imgs) (length anns)) done lines.
Proof.
  revert out stdout. induction splits as [|split splits IH]; intros out stdout; simpl.
  - intros [= <- <- <-]. exists []. split; [done|]. split; [done|]. split; [done|].
    split; [by intros ? ?%elem_of_nil|]. split; [done|].
    exists []. by rewrite app_nil_r.
  - destruct (collect_annotations_for_category root split category_name)
      as [[[imgs anns] cats]|e] eqn:Hsplit.
    + intros (done & Hpre & Hret & Hexit & Hfiles & Hframe & lines & -> & Hlines)%IH.
      exists (split :: done). split; [by apply prefix_cons|].
      split; [by intros ->%Hret|]. split; [done|]. split; [|split].
      * intros split' [->|Hin]%elem_of_cons; [|by apply Hfiles].
        exists imgs, anns, cats. split; [done|].
        destruct (decide (split ∈ done)) as [Hin|Hnot].
        -- destruct (Hfiles split Hin) as (? & ? & ? & ? & ?). congruence.
        -- rewrite Hframe, lookup_insert_eq; [done|].
           intros (s & ->%out_name_inj & ?)%list_elem_of_fmap. done.
      * intros name [Hne Hnot]%not_elem_of_cons.
        by rewrite Hframe, lookup_insert_ne.
      * exists (PrintGenerated (out_name category_name split) (length imgs)
                               (length anns) :: lines).
        rewrite <-app_assoc. split; [done|].
        constructor; [|done]. by exists imgs, anns, cats.
    + intros [= <- <- <-]. exists []. split; [apply prefix_nil|].
      split; [done|]. split; [done|].
      split; [by intros ? ?%elem_of_nil|]. split; [done|].
      exists []. by rewrite app_nil_r.
Qed.

Lemma split_document_well_numbered (root : category_dir)
    (category_name split : string)
    (imgs : list image_rec) (anns : list annotation) (cats : list category) :
  collect_annotations_for_category root split category_name = Ok (imgs, anns, cats) →
  well_numbered (split_document category_name split imgs anns cats).
Proof.
  intros (Him & _ & Han & _ & Href)%collect_ids_ok. simpl in *.
  split; [done|]. split; [done|]. simpl.
  eapply Forall_impl; [exact Href|]. simpl. intros a Ha.
  rewrite Him. apply elem_of_seqZ. lia.
Qed.
End DriverProofs.

(** X15.  When [main] returns normally, every requested split has its
    file [strawberries_instances_<split>.json] in the output directory,
    holding the document built from what the collector returns for that
    split (description "PlantVillage strawberries <split> split", year
    2015, version "1.0.0", no licenses); no other file of the output
    directory is touched; and one "Generated" line per requested split
    is printed, in order, with the numbers of images and annotations. *)
Theorem main_writes_requested_splits `{PyNum}
    (splits : list string) (root : category_dir)
    (out : option (gmap string coco)) (out' : gmap string coco)
    (stdout : list printed) :
  main splits (Some root) out = (out', stdout, Returned) →
  (∀ split, split ∈ splits →
     ∃ imgs anns cats,
       collect_annotations_for_category root split "strawberries"
         = Ok (imgs, anns, cats) ∧
       out' !! out_name "strawberries" split
         = Some (build_coco_dict imgs anns cats
                   ("PlantVillage strawberries " +:+ split +:+ " split")
                   kaggle_url 2015)) ∧
  (∀ name, name ∉ out_name "strawberries" <$> splits →
     out' !! name = default ∅ out !! name) ∧
  Forall2 (λ split line,
    ∃ imgs anns cats,
      collect_annotations_for_category root split "strawberries"
        = Ok (imgs, anns, cats) ∧
      line = PrintGenerated (out_name "strawberries" split)
                            (length imgs) (length anns)) splits stdout.
Proof.
  unfold main.
  intros (done & _ & Hret & _ & Hfiles & Hframe & lines & Hout & Hlines)%write_splits_spec.
  rewrite (Hret eq_refl) in *. simpl in Hout. subst lines. done.
Qed.

Lemma main_writes_requested_splits_witness :
  @main ZNum ["train"; "val"] (Some example_root) None
    = ((@main ZNum ["train"; "val"] (Some example_root) None).1.1,
       (@main ZNum ["train"; "val"] (Some example_root) None).1.2, Returned) ∧
  (@main ZNum ["train"; "val"] (Some example_root) None).1.1
     !! out_name "strawberries" "train"
    = Some (@build_coco_dict ZNum example_images example_anns example_categories
              "PlantVillage strawberries train split" kaggle_url 2015).
Proof.
  assert ((@main ZNum ["train"; "val"] (Some example_root) None).2 = Returned)
    as Hend by (vm_compute; reflexivity).
  assert (@main ZNum ["train"; "val"] (Some example_root) None
    = ((@main ZNum ["train"; "val"] (Some example_root) None).1.1,
       (@main ZNum ["train"; "val"] (Some example_root) None).1.2, Returned)) as Hmain
    by (rewrite <-Hend; by destruct (@main ZNum ["train"; "val"] (Some example_root) None)
          as [[??]?]).
  split; [exact Hmain|].
  destruct (proj1 (@main_writes_requested_splits ZNum _ _ _ _ _ Hmain) "train")
    as (imgs & anns & cats & Hcollect & Hfile).
  - apply list_elem_of_here.
  - rewrite Hfile.
    assert (@collect_annotations_for_category ZNum example_root "train" "strawberries"
            = Ok (example_images, example_anns, example_categories)) as Hex
      by reflexivity.
    rewrite Hex in Hcollect. injection Hcollect as <- <- <-. reflexivity.
Defined.

Lemma write_splits_Returned `{PyNum} (root : category_dir) (category_name : string)
    (splits : list string) (out : gmap string coco) (stdout : list printed) :
  Forall (λ split,
    is_ok (collect_annotations_for_category root split category_name)) splits →
  (write_splits root category_name splits out stdout).2 = Returned.
Proof.
  intros Hok. revert out stdout.
  induction Hok as [|split splits Hsplit _ IH]; intros out stdout; simpl; [done|].
  destruct (collect_annotations_for_category root split category_name)
    as [[[imgs anns] cats]|]; [apply IH|done].
Qed.

(** X16.  [main] stops at the first split for which the collector
    raises: the exception is not caught, the files and lines of the
    splits before it stay as written, and the splits after it are not
    attempted. *)
Theorem main_stops_at_first_failing_split `{PyNum}
    (done rest : list string) (bad : string) (root : category_dir)
    (out : option (gmap string coco)) (e : exn) :
  Forall (λ split,
    is_ok (collect_annotations_for_category root split "strawberries")) done →
  collect_annotations_for_category root bad "strawberries" = Raise e →
  main (done ++ bad :: rest) (Some root) out =
  ((main done (Some root) out).1.1, (main done (Some root) out).1.2, Uncaught e).
Proof.
  intros Hdone Hbad. unfold main. rewrite write_splits_app.
  pose proof (write_splits_Returned root "strawberries" done (default ∅ out) [] Hdone)
    as Hret.
  destruct (write_splits root "strawberries" done (default ∅ out) [])
    as [[out' stdout'] end_]. simpl in *. subst end_.
  by rewrite Hbad.
Qed.

Lemma main_stops_at_first_failing_split_witness :
  Forall (λ split,
    is_ok (@collect_annotations_for_category ZNum
             example_root_bad_val split "strawberries")) ["train"] ∧
  @collect_annotations_for_category ZNum example_root_bad_val "val" "strawberries"
    = Raise TypeError ∧
  @main ZNum (["train"] ++ "val" :: ["test"]) (Some example_root_bad_val) None =
  ((@main ZNum ["train"] (Some example_root_bad_val) None).1.1,
   (@main ZNum ["train"] (Some example_root_bad_val) None).1.2, Uncaught TypeError).
Proof.
  assert (Forall (λ split,
    is_ok (@collect_annotations_for_category ZNum
             example_root_bad_val split "strawberries")) ["train"]) as Hdone.
  { constructor; [|constructor]. vm_compute. exact I. }
  assert (@collect_annotations_for_category ZNum example_root_bad_val "val"
            "strawberries" = Raise TypeError) as Hbad by reflexivity.
  split; [exact Hdone|]. split; [exact Hbad|].
  exact (@main_stops_at_first_failing_split ZNum ["train"] ["test"] "val"
           example_root_bad_val None TypeError Hdone Hbad).
Defined.

(** X17.  Whatever way [main] ends, every document found in the output
    directory afterwards was either there before or is well numbered:
    image ids and annotation ids are 1, 2, ... in list order, starting
    anew in every split's document, and every annotation refers to an
    image of its own document. *)
Theorem main_adds_well_numbered_documents `{PyNum}
    (splits : list string) (root : option category_dir)
    (out : option (gmap string coco)) (out' : gmap string coco)
    (stdout : list printed) (end_ : outcome) :
  main splits root out = (out', stdout, end_) →
  ∀ name doc, out' !! name = Some doc →
    default ∅ out !! name = Some doc ∨ well_numbered doc.
Proof.
  unfold main. destruct root as [root|]; [|intros [= <- _ _]; by left].
  intros (done & _ & _ & _ & Hfiles & Hframe & _)%write_splits_spec name doc Hdoc.
  destruct (decide (name ∈ out_name "strawberries" <$> done)) as [Hin|Hnot].
  - right. apply list_elem_of_fmap in Hin as (split & -> & Hin).
    destruct (Hfiles split Hin) as (imgs & anns & cats & Hcollect & Hfile).
    rewrite Hfile in Hdoc. injection Hdoc as <-.
    by eapply split_document_well_numbered.
  - left. by rewrite <-Hframe.
Qed.

Lemma main_adds_well_numbered_documents_witness :
  @main ZNum ["train"; "val"] (Some example_root) None
    = ((@main ZNum ["train"; "val"] (Some example_root) None).1.1,
       (@main ZNum ["train"; "val"] (Some example_root) None).1.2, Returned) ∧
  ∀ name doc,
    (@main ZNum ["train"; "val"] (Some example_root) None).1.1 !! name = Some doc →
    (default ∅ None : gmap string coco) !! name = Some doc ∨ well_numbered doc.
Proof.
  assert ((@main ZNum ["train"; "val"] (Some example_root) None).2 = Returned)
    as Hend by (vm_compute; reflexivity).
  assert (@main ZNum ["train"; "val"] (Some example_root) None
    = ((@main ZNum ["train"; "val"] (Some example_root) None).1.1,
       (@main ZNum ["train"; "val"] (Some example_root) None).1.2, Returned)) as Hmain
    by (rewrite <-Hend; by destruct (@main ZNum ["train"; "val"] (Some example_root) None)
          as [[??]?]).
  split; [exact Hmain|].
  exact (@main_adds_well_numbered_documents ZNum _ _ _ _ _ _ Hmain).
Defined.

(** X18.  [main] exits with a status (and it is 1) exactly when the
    category directory does not exist; it has then printed the error
    line only and written no file, though the output directory has been
    created. *)
Theorem main_exits_when_category_missing `{PyNum}
    (splits : list string) (root : option category_dir)
    (out : option (gmap string coco)) (out' : gmap string coco)
    (stdout : list printed) (code : Z) :
  main splits root out = (out', stdout, SysExit code) ↔
  root = None ∧ code = 1 ∧ out' = default ∅ out ∧
  stdout = [PrintNotFound "strawberries"].
Proof.
  unfold main. destruct root as [root|]; split.
  - intros Hrun. pose proof Hrun as (done & _ & _ & Hexit & _)%write_splits_spec.
    exfalso. revert Hrun. generalize (default ∅ out) ([] : list printed).
    induction splits as [|split splits IH]; intros o s; simpl; [done|].
    destruct (collect_annotations_for_category root split "strawberries")
      as [[[imgs anns] cats]|]; [apply IH|done].
  - by intros [[=] _].
  - by intros [= <- <- <-].
  - by intros (_ & -> & -> & ->).
Qed.

(** X19.  On a category folder whose split file and CSV files have been
    read (the split file decoded into its lines, every CSV file
    tokenised into its records), the collector returns a document
    whenever the label map loads, every image file of every subcategory
    opens and every record of every CSV file is at least as long as its
    header. *)
Theorem collect_returns_on_readable_input `{PyNum}
    (root : category_dir) (split category_name : string) :
  readable root →
  is_ok (collect_annotations_for_category root split category_name).
Proof. apply collect_returns. Qed.

Lemma collect_returns_on_readable_input_witness :
  readable example_root ∧
  is_ok (@collect_annotations_for_category ZNum example_root "train" "strawberries").
Proof.
  assert (readable example_root) as Hreadable.
  { split; [exact I|].
    repeat constructor; simpl.
    - by intros dir [=].
    - apply map_Forall_empty.
    - intros dir [= <-].
      repeat (apply map_Forall_insert_2; [done|]). apply map_Forall_empty.
    - repeat (apply map_Forall_insert_2; [repeat constructor|]).
      apply map_Forall_empty.
    - intros dir [= <-].
      repeat (apply map_Forall_insert_2; [done|]). apply map_Forall_empty.
    - repeat (apply map_Forall_insert_2; [repeat constructor|]).
      apply map_Forall_empty. }
  split; [exact Hreadable|].
  exact (@collect_returns_on_readable_input ZNum example_root "train" "strawberries"
           Hreadable).
Defined.

(** ** What the result does not depend on *)

(** X20.  Images and annotations do not depend on the label map: with
    another label map that loads, the collector returns the same image
    and annotation records, and the category list of the other map.  In
    particular the category ids of annotations are taken from the CSV
    files as they are and never checked against the label map. *)
Theorem collect_images_independent_of_labelmap `{PyNum}
    (labelmap labelmap' : option labelmap_file) (sets : gmap string (list string))
    (children : list (string * dir_entry)) (split category_name : string)
    (imgs : list image_rec) (anns : list annotation) (cats : list category)
    (m' : gmap Z string) :
  collect_annotations_for_category
    (CategoryDir labelmap sets children) split category_name = Ok (imgs, anns, cats) →
  load_labelmap labelmap' = Ok m' →
  collect_annotations_for_category
    (CategoryDir labelmap' sets children) split category_name
  = Ok (imgs, anns, categories_of m' category_name).
Proof.
  rewrite !collect_is_collect_spec. unfold collect_spec, visits, split_names. simpl.
  intros Hcollect ->. simpl.
  destruct (load_labelmap labelmap) as [m|]; simpl in *; [|done].
  match goal with |- context [first_error ?vs] => destruct (first_error vs) end;
    [done|].
  by injection Hcollect as <- <- _.
Qed.

Lemma collect_images_independent_of_labelmap_witness :
  @collect_annotations_for_category ZNum
    (CategoryDir (Some example_labelmap) example_sets (iterdir example_root))
    "train" "strawberries"
    = Ok (example_images, example_anns, example_categories) ∧
  load_labelmap (Some (JSONArray [LabelmapItem (Some "leaf") (Some 7)]))
    = Ok {[7 := "leaf"]} ∧
  @collect_annotations_for_category ZNum
    (CategoryDir (Some (JSONArray [LabelmapItem (Some "leaf") (Some 7)]))
                 example_sets (iterdir example_root))
    "train" "strawberries"
  = Ok (example_images, example_anns, categories_of {[7 := "leaf"]} "strawberries").
Proof.
  assert (@collect_annotations_for_category ZNum
    (CategoryDir (Some example_labelmap) example_sets (iterdir example_root))
    "train" "strawberries"
    = Ok (example_images, example_anns, example_categories)) as Hcollect
    by reflexivity.
  assert (load_labelmap (Some (JSONArray [LabelmapItem (Some "leaf") (Some 7)]))
    = Ok {[7 := "leaf"]}) as Hload by reflexivity.
  split; [exact Hcollect|]. split; [exact Hload|].
  exact (@collect_images_independent_of_labelmap ZNum _ _ _ _ _ _ _ _ _ _
           Hcollect Hload).
Defined.

(** X21.  The result depends on the split file only through the set of
    its names: the order of the lines and repeated lines make no
    difference. *)
Theorem collect_depends_on_split_set `{PyNum}
    (labelmap : option labelmap_file) (sets sets' : gmap string (list string))
    (children : list (string * dir_entry)) (split category_name : string) :
  (∀ name,
     name ∈ read_split_list (sets !! (split +:+ ".txt")) ↔
     name ∈ read_split_list (sets' !! (split +:+ ".txt"))) →
  collect_annotations_for_category
    (CategoryDir labelmap sets children) split category_name =
  collect_annotations_for_category
    (CategoryDir labelmap sets' children) split category_name.
Proof.
  intros Hsame. unfold collect_annotations_for_category. simpl.
  assert (list_to_set (read_split_list (sets !! (split +:+ ".txt")))
          =@{gset string} list_to_set (read_split_list (sets' !! (split +:+ ".txt"))))
    as ->; [|done].
  apply set_eq. intros name. by rewrite !elem_of_list_to_set.
Qed.

Lemma collect_depends_on_split_set_witness :
  (∀ name,
     name ∈ read_split_list (example_sets !! ("train" +:+ ".txt")) ↔
     name ∈ read_split_list (example_sets_shuffled !! ("train" +:+ ".txt"))) ∧
  @collect_annotations_for_category ZNum
    (CategoryDir (Some example_labelmap) example_sets (iterdir example_root))
    "train" "strawberries" =
  @collect_annotations_for_category ZNum
    (CategoryDir (Some example_labelmap) example_sets_shuffled (iterdir example_root))
    "train" "strawberries".
Proof.
  assert (∀ name,
     name ∈ read_split_list (example_sets !! ("train" +:+ ".txt")) ↔
     name ∈ read_split_list (example_sets_shuffled !! ("train" +:+ ".txt"))) as Hsame.
  { intros name.
    change (read_split_list (example_sets !! ("train" +:+ ".txt")))
      with ["a"; "b"; "c"; "e"; ".jpg"; "zz"].
    change (read_split_list (example_sets_shuffled !! ("train" +:+ ".txt")))
      with ["e"; "zz"; "b"; "a"; "c"; "a"; ".jpg"].
    set_solver. }
  split; [exact Hsame|].
  exact (@collect_depends_on_split_set ZNum _ _ _ _ _ _ Hsame).
Defined.

(** ** Order within a subcategory *)

Lemma StronglySorted_strict {A} (R : relation A) (l : list A) :
  StronglySorted R l → NoDup l → StronglySorted (λ x y, R x y ∧ x ≠ y) l.
Proof.
  induction 1 as [|x l Hl IH Hx]; [constructor|].
  intros [Hnot Hnodup]%NoDup_cons. constructor.
  - by apply IH.
  - apply Forall_forall. rewrite Forall_forall in Hx.
    intros y Hy. split; [by apply Hx|]. by intros ->.
Qed.

Lemma StronglySorted_omap {A B} (R : relation A) (R' : relation B)
    (f : A → option B) (l : list A) :
  (∀ x y fx fy, R x y → f x = Some fx → f y = Some fy → R' fx fy) →
  StronglySorted R l → StronglySorted R' (omap f l).
Proof.
  intros Hf. induction 1 as [|x l Hl IH Hx]; simpl; [constructor|].
  destruct (f x) as [fx|] eqn:Hfx; [|done].
  constructor; [done|]. apply Forall_forall.
  intros fy (y & Hy & Hfy)%list_elem_of_omap.
  rewrite Forall_forall in Hx. by eapply Hf; [apply Hx|..].
Qed.

Lemma StronglySorted_lookup {A} (R : relation A) (l : list A) (i j : nat) (x y : A) :
  StronglySorted R l → (i < j)%nat → l !! i = Some x → l !! j = Some y → R x y.
Proof.
  intros Hl. revert i j. induction Hl as [|z l Hl IH Hz]; intros i j Hij; [done|].
  destruct j as [|j]; [lia|]. destruct i as [|i]; simpl.
  - intros [= ->] Hy%list_elem_of_lookup_2. rewrite Forall_forall in Hz. by apply Hz.
  - apply IH. lia.
Qed.

Lemma child_visits_ordered (image_stems : gset string) (child : string * dir_entry) :
  StronglySorted stem_ordered (child_visits image_stems child).
Proof.
  destruct child as [sc [|d]]; simpl; [constructor|].
  destruct (decide (sc = "sets")); [constructor|].
  destruct (images_dir d) as [dir|]; [|constructor].
  destruct (selected_stems_sorted image_stems dir) as [Hsorted Hnodup].
  eapply StronglySorted_omap; [|by apply StronglySorted_strict].
  unfold stem_visit. intros s1 s2 v1 v2 Hs Hv1 Hv2 _.
  destruct (resolve dir s1 extensions), (resolve dir s2 extensions); simplify_eq/=.
  done.
Qed.

Lemma visits_ordered (root : category_dir) (split : string) :
  NoDup (iterdir root).*1 → StronglySorted stem_ordered (visits root split).
Proof.
  unfold visits. generalize (list_to_set (split_names root split) : gset string).
  intros image_stems. induction (iterdir root) as [|child children IH]; csimpl.
  - constructor.
  - intros [Hnot Hnodup]%NoDup_cons. apply StronglySorted_app_2.
    + intros v1 v2 (d1 & ? & ? & -> & _)%elem_of_child_visits
        (child2 & (d2 & ? & ? & -> & _)%elem_of_child_visits & Hin)%list_elem_of_bind
        Hsame.
      destruct Hnot. simpl. rewrite Hsame. apply list_elem_of_fmap.
      by exists (v_subcategory v2, Directory d2).
    + apply child_visits_ordered.
    + by apply IH.
Qed.

(** X22.  Within one subcategory the image records appear in strictly
    ascending order of their base names (the order of Python's [sorted]
    on the stems), so their ids increase with the base name; this holds
    whatever the order of the split file and of the images folder. *)
Theorem images_of_a_subcategory_are_sorted `{PyNum}
    (root : category_dir) (split category_name : string)
    (imgs : list image_rec) (anns : list annotation) (cats : list category)
    (i j : nat) (im1 im2 : image_rec) (sc stem1 ext1 stem2 ext2 : string) :
  slash_free root → NoDup (iterdir root).*1 →
  collect_annotations_for_category root split category_name = Ok (imgs, anns, cats) →
  (i < j)%nat → imgs !! i = Some im1 → imgs !! j = Some im2 →
  sc ∈ (iterdir root).*1 → ext1 ∈ extensions → ext2 ∈ extensions →
  file_name im1 = image_file_name category_name sc (stem1 +:+ ext1) →
  file_name im2 = image_file_name category_name sc (stem2 +:+ ext2) →
  String.le stem1 stem2 ∧ stem1 ≠ stem2.
Proof.
  intros Hfree Hnames (_ & -> & _)%collect_Ok Hij Hi Hj Hsc Hext1 Hext2 Hf1 Hf2.
  rewrite lookup_images_of in Hi, Hj.
  destruct (visits root split !! i) as [v1|] eqn:Hv1; simplify_eq/=.
  destruct (visits root split !! j) as [v2|] eqn:Hv2; simplify_eq/=.
  pose proof (StronglySorted_lookup _ _ _ _ _ _
                (visits_ordered root split Hnames) Hij Hv1 Hv2) as Hord.
  assert (∀ v stem ext, v ∈ visits root split → ext ∈ extensions →
            image_file_name category_name (v_subcategory v) (v_name v)
              = image_file_name category_name sc (stem +:+ ext) →
            v_subcategory v = sc ∧ v_stem v = stem) as Hname.
  { intros v stem ext
      (d & dir & name & Hchild & _ & _ & _ & _ & Hres & Hv)%elem_of_visits Hext Heq.
    apply list_elem_of_fmap in Hsc as ([sc' e] & -> & Hsc).
    unfold slash_free in Hfree. rewrite Forall_forall in Hfree.
    apply image_file_name_inj in Heq as [Hsub Heq];
      [|exact (Hfree _ Hchild)|exact (Hfree _ Hsc)].
    split; [done|].
    apply resolve_Some in Hres as (ext' & Hext' & Hn & _).
    assert (v_name v = name) as Hvn by (by rewrite Hv).
    rewrite Hvn, Hn in Heq. by apply app_ext_inj in Heq as [-> _]. }
  apply list_elem_of_lookup_2 in Hv1, Hv2.
  destruct (Hname v1 stem1 ext1 Hv1 Hext1 Hf1) as [Hs1 <-].
  destruct (Hname v2 stem2 ext2 Hv2 Hext2 Hf2) as [Hs2 <-].
  apply Hord. congruence.
Qed.

Lemma images_of_a_subcategory_are_sorted_witness :
  slash_free example_root ∧ NoDup (iterdir example_root).*1 ∧
  @collect_annotations_for_category ZNum example_root "train" "strawberries"
    = Ok (example_images, example_anns, example_categories) ∧
  example_images !! 0%nat = Some (ImageRec 1 "strawberries/healthy/images/a.jpg" 10 20) ∧
  example_images !! 1%nat = Some (ImageRec 2 "strawberries/healthy/images/b.PNG" 30 40) ∧
  String.le "a" "b" ∧ "a" ≠ "b".
Proof.
  assert (slash_free example_root) as Hfree by (repeat constructor).
  assert (NoDup (iterdir example_root).*1) as Hnames
    by (apply (bool_decide_unpack _); vm_compute; exact I).
  split; [exact Hfree|]. split; [exact Hnames|]. split; [reflexivity|].
  split; [reflexivity|]. split; [reflexivity|].
  apply (@images_of_a_subcategory_are_sorted ZNum example_root "train" "strawberries"
           example_images example_anns example_categories 0 1
           (ImageRec 1 "strawberries/healthy/images/a.jpg" 10 20)
           (ImageRec 2 "strawberries/healthy/images/b.PNG" 30 40)
           "healthy" "a" ".jpg" "b" ".PNG" Hfree Hnames).
  - reflexivity.
  - lia.
  - reflexivity.
  - reflexivity.
  - apply (bool_decide_unpack _). vm_compute. exact I.
  - apply (bool_decide_unpack _). vm_compute. exact I.
  - apply (bool_decide_unpack _). vm_compute. exact I.
  - reflexivity.
  - reflexivity.
Defined.
